(** * Function-boundary extraction of [scrape.py]

    A shallow embedding of the balance scanner, the four boundary
    extractors and the per-file locator of [src/scrape.py], together with
    the properties the specification states about them.

    Conventions of the embedding

    - A Python [str] is a list of characters ([list ascii]); the characters
      are the code points below 256.  [''.join] is [concat], [+] is [++].
    - A Python [int] is a [Z]; cursors are [Z] because the code computes
      [len(lines) - 1], which is [-1] on an empty list.
    - Indexing [l[i]] and slicing [l[a:b]] follow Python: negative indices
      count from the end, an index out of range raises [IndexError], a
      slice clamps its bounds.
    - Code that can raise returns an [outcome]; a [while] loop runs on
      fuel and answers [OutOfFuel] when the fuel is exhausted, which the
      totality lemmas below show never happens with the fuel the callers
      supply. *)

From Stdlib Require Import Ascii String.
From Stdlib Require Import List ZArith Lia Bool Permutation.
Import ListNotations.
Local Open Scope Z_scope.

(* ================================================================== *)
(** * Python values *)
(* ================================================================== *)

Module Py.

Definition str := list ascii.

(** A literal. *)
Definition lit (s : string) : str := list_ascii_of_string s.

Definition len {A} (l : list A) : Z := Z.of_nat (length l).

(** Exceptions the code can meet.  [OSError] stands for whatever
    [open] raises on a file it cannot open. *)
Inductive exn := IndexError | UnicodeDecodeError | ClassNotFound | OSError.

Inductive outcome (A : Type) :=
| Ok (a : A)
| Raise (e : exn)
| OutOfFuel.
Arguments Ok {A} a.
Arguments Raise {A} e.
Arguments OutOfFuel {A}.

Definition bind {A B} (m : outcome A) (k : A -> outcome B) : outcome B :=
  match m with
  | Ok a => k a
  | Raise e => Raise e
  | OutOfFuel => OutOfFuel
  end.

(** [l[i]] *)
Definition getitem {A} (l : list A) (i : Z) : outcome A :=
  let i' := if i <? 0 then i + len l else i in
  if (0 <=? i') && (i' <? len l) then
    match nth_error l (Z.to_nat i') with
    | Some x => Ok x
    | None => Raise IndexError
    end
  else Raise IndexError.

(** How a slice bound is clamped for a sequence of length [n]. *)
Definition clamp (n i : Z) : Z :=
  if i <? 0 then Z.max 0 (i + n) else Z.min i n.

(** [l[a:b]] *)
Definition slice {A} (l : list A) (a b : Z) : list A :=
  let a' := clamp (len l) a in
  let b' := clamp (len l) b in
  firstn (Z.to_nat (b' - a')) (skipn (Z.to_nat a') l).

(** [l[a:]] *)
Definition slice_from {A} (l : list A) (a : Z) : list A :=
  skipn (Z.to_nat (clamp (len l) a)) l.

(** [c in s] for a one-character [c] *)
Definition contains (c : ascii) (s : str) : bool :=
  existsb (Ascii.eqb c) s.

(** [s.find(c)] for a one-character [c]: the first index, or [-1]. *)
Fixpoint find_from (c : ascii) (s : str) (i : Z) : Z :=
  match s with
  | [] => -1
  | x :: r => if Ascii.eqb x c then i else find_from c r (i + 1)
  end.
Definition find (c : ascii) (s : str) : Z := find_from c s 0.

(** [s.replace(old, new)] for a one-character [old] *)
Definition replace (old : ascii) (new : str) (s : str) : str :=
  flat_map (fun x => if Ascii.eqb x old then new else [x]) s.

(** [str.isspace] on one character: the code points below 256 that
    Python counts as whitespace. *)
Definition isspace (c : ascii) : bool :=
  let n := nat_of_ascii c in
  (((9 <=? n) && (n <=? 13)) || ((28 <=? n) && (n <=? 32))
   || (n =? 133) || (n =? 160))%nat.

Fixpoint lstrip (s : str) : str :=
  match s with
  | [] => []
  | c :: r => if isspace c then lstrip r else s
  end.

Definition rstrip (s : str) : str := rev (lstrip (rev s)).

(** [s.strip()] *)
Definition strip (s : str) : str := rstrip (lstrip s).

Fixpoint startswith (p s : str) : bool :=
  match p, s with
  | [], _ => true
  | _ :: _, [] => false
  | a :: p', b :: s' => Ascii.eqb a b && startswith p' s'
  end.

(** [s.endswith(p)] *)
Definition endswith (p s : str) : bool := startswith (rev p) (rev s).

End Py.

Import Py.

Notation "x <- m ;; k" := (Py.bind m (fun x => k))
  (at level 61, m at next level, right associativity).
Notation "' p <- m ;; k" := (Py.bind m (fun x => match x with p => k end))
  (at level 61, p pattern, m at next level, right associativity).

(* ================================================================== *)
(** * Balance scanner *)
(* ================================================================== *)

(** A bracket pair.  [get_balance] reads [braces[0]] and [braces[1]]; its
    two call sites pass the literals ["{}"] and ["()"]. *)
Record braces := Braces { br_open : ascii; br_close : ascii }.

Definition curly : braces := Braces "{" "}".
Definition round : braces := Braces "(" ")".

Definition get_balance (line : str) (b : braces) : Z :=
  fold_right Z.add 0
    (map (fun x => if Ascii.eqb x (br_open b) then 1
                   else if Ascii.eqb x (br_close b) then -1 else 0) line).

(* ================================================================== *)
(** * Boundary extractors *)
(* ================================================================== *)

(** What an extractor returns: new cursor, full text, clean body. *)
Definition extraction : Type := Z * str * str.

(** The [enumerate] loop of [extract_curly_oneliner]: [i] is the index of
    the head of [line]. *)
Fixpoint oneliner_scan (line : str) (i start_clean end_clean : Z) : Z * Z :=
  match line with
  | [] => (start_clean, end_clean)
  | c :: r =>
      let start_clean :=
        if Ascii.eqb c "{" && (start_clean =? -1) then i + 1 else start_clean in
      let end_clean := if Ascii.eqb c "}" then i else end_clean in
      oneliner_scan r (i + 1) start_clean end_clean
  end.

Definition extract_curly_oneliner (start : Z) (header line : str) : extraction :=
  let '(start_clean, end_clean) := oneliner_scan line 0 (-1) (-1) in
  let clean_body := slice line start_clean end_clean in
  (start, header, clean_body).

(** The [for j in range(start + 1, len(lines))] loop of
    [extract_curly_function]: [n] iterations remain, [j] is the current
    index.  Falling off the range is the "left hanging" return. *)
Fixpoint curly_for (header : str) (lines : list str) (start : Z)
    (n : nat) (j curly_balance : Z) : outcome extraction :=
  match n with
  | O => Ok (len lines - 1, [], [])
  | S n' =>
      lj <- getitem lines j ;;
      let curly_balance := curly_balance + get_balance lj curly in
      if curly_balance =? 0 then
        let body := header ++ concat (slice lines (start + 1) (j + 1)) in
        let clean_body :=
          replace "}" [] (concat (slice lines (start + 1) (j + 1))) in
        Ok (j, body, clean_body)
      else curly_for header lines start n' (j + 1) curly_balance
  end.

Definition extract_curly_function (start initial_curly_balance : Z)
    (header : str) (lines : list str) : outcome extraction :=
  curly_for header lines start
    (Z.to_nat (len lines - (start + 1))) (start + 1) initial_curly_balance.

(** The generator of [get_ident]: the first index whose character is not
    a space, if there is one. *)
Fixpoint first_non_space (line : str) (i : Z) : option Z :=
  match line with
  | [] => None
  | c :: r => if negb (Ascii.eqb c " ") then Some i
              else first_non_space r (i + 1)
  end.

Definition get_ident (line : str) : Z :=
  match first_non_space line 0 with
  | Some i => i
  | None => 0
  end.

(** The [while] loop of [extract_python_function]. *)
Fixpoint python_while (fuel : nat) (lines : list str) (ident j : Z)
    : outcome Z :=
  if j + 1 <? len lines then
    match fuel with
    | O => OutOfFuel
    | S fuel' =>
        next <- getitem lines (j + 1) ;;
        if get_ident next >=? ident + 4
        then python_while fuel' lines ident (j + 1)
        else Ok j
    end
  else Ok j.

Definition extract_python_function (start : Z) (header line : str)
    (lines : list str) : outcome extraction :=
  let ident := get_ident line in
  j <- python_while (Z.to_nat (len lines - start)) lines ident start ;;
  let body := header ++ concat (slice lines (start + 1) (j + 1)) in
  let clean_body := concat (slice lines (start + 1) (j + 1)) in
  Ok (j, body, clean_body).

Definition extract_clean_oneliner (start : Z) (header line : str) : extraction :=
  (start, line, slice_from line (find "=" line + 1)).

(* ================================================================== *)
(** * Function locator *)
(* ================================================================== *)

Section Locator.

(** The token kinds of the lexical-analysis collaborator, and the test
    [token == Token.Name.Function]. *)
Variable Token : Type.
Variable is_Name_Function : Token -> bool.

(** A lexer is used through [lexer.get_tokens(line)] only. *)
Definition lexer : Type := str -> list (Token * str).

Definition method : Type := str * str.

(** The [if]/[elif] chain of [process_filename] on a line that carries
    a function-name token.  [body] and [clean_body] start out empty. *)
Definition dispatch (lines : list str) (i : Z) (line : str) (missed : Z)
    : outcome (extraction * Z) :=
  let header := line in
  if contains "{" line then
    let curly_balance := get_balance line curly in
    if curly_balance =? 0 then
      Ok (extract_curly_oneliner i header line, missed)
    else if negb (curly_balance =? 0) then
      r <- extract_curly_function i curly_balance header lines ;;
      Ok (r, missed)
    else Ok ((i, [], []), missed)
  else if endswith (lit ":") (strip line) then
    r <- extract_python_function i header line lines ;;
    Ok (r, missed)
  else if negb (endswith (lit ";") (strip line))
          && negb (endswith (lit "...") (strip line))
          && (get_balance line round =? 0) then
    Ok (extract_clean_oneliner i header line, missed)
  else Ok ((i, [], []), missed + 1).

(** The body of [if token == Token.Name.Function:], up to the [break]. *)
Definition handle_function (lines : list str) (i : Z) (line name : str)
    (methods : list method) (missed : Z)
    : outcome (Z * list method * Z) :=
  '(i, body, clean_body, missed) <- dispatch lines i line missed ;;
  let methods :=
    match strip clean_body with
    | [] => methods
    | _ :: _ => methods ++ [(name, body)]
    end in
  Ok (i, methods, missed).

(** [for token, s in lexer.get_tokens(line)]: the first function-name
    token is handled and ends the loop. *)
Fixpoint for_tokens (tokens : list (Token * str)) (lines : list str)
    (i : Z) (line : str) (methods : list method) (missed : Z)
    : outcome (Z * list method * Z) :=
  match tokens with
  | [] => Ok (i, methods, missed)
  | (token, s) :: rest =>
      if is_Name_Function token
      then handle_function lines i line s methods missed
      else for_tokens rest lines i line methods missed
  end.

(** One iteration of [while i < len(lines)], including [i += 1]. *)
Definition scan_step (get_tokens : lexer) (lines : list str)
    (i : Z) (methods : list method) (missed : Z)
    : outcome (Z * list method * Z) :=
  line <- getitem lines i ;;
  '(i, methods, missed) <-
    for_tokens (get_tokens line) lines i line methods missed ;;
  Ok (i + 1, methods, missed).

Fixpoint scan_loop (fuel : nat) (get_tokens : lexer) (lines : list str)
    (i : Z) (methods : list method) (missed : Z)
    : outcome (list method * Z) :=
  if i <? len lines then
    match fuel with
    | O => OutOfFuel
    | S fuel' =>
        '(i, methods, missed) <- scan_step get_tokens lines i methods missed ;;
        scan_loop fuel' get_tokens lines i methods missed
    end
  else Ok (methods, missed).

(** The two collaborators that can fail: [get_lexer_for_filename]
    raises [ClassNotFound]; [open] followed by [readlines] raises
    [UnicodeDecodeError] on a file that is not UTF-8 text. *)
Variable get_lexer_for_filename : str -> outcome lexer.
Variable readlines : str -> outcome (list str).

(** The body of the [try]. *)
Definition process_filename_try (filename : str)
    : outcome (list method * Z) :=
  let missed := 0 in
  let methods := [] in
  lexer <- get_lexer_for_filename filename ;;
  lines <- readlines filename ;;
  scan_loop (length lines) lexer lines 0 methods missed.

Definition process_filename (filename : str) : outcome (list method * Z) :=
  match process_filename_try filename with
  | Raise UnicodeDecodeError => Ok ([], 0)
  | Raise ClassNotFound => Ok ([], 0)
  | r => r
  end.

End Locator.

Arguments for_tokens {Token}.
Arguments scan_step {Token}.
Arguments scan_loop {Token}.
Arguments process_filename_try {Token}.
Arguments process_filename {Token}.

(* ================================================================== *)
(** * Vocabulary of the specification *)
(* ================================================================== *)

(** [n] is the index of the first (last) occurrence of [c] in [s]. *)
Definition is_first_index (c : ascii) (s : str) (n : nat) : Prop :=
  nth_error s n = Some c /\ forall k, (k < n)%nat -> nth_error s k <> Some c.

Definition is_last_index (c : ascii) (s : str) (n : nat) : Prop :=
  nth_error s n = Some c /\ forall k, (n < k)%nat -> nth_error s k <> Some c.

(** The characters of [s] at the indices [a <= p < b]. *)
Definition substring_between (a b : nat) (s : str) : str :=
  firstn (b - a) (skipn a s).

(** The lines with indices [a] through [b], both included. *)
Definition lines_between (lines : list str) (a b : nat) : list str :=
  firstn (b + 1 - a) (skipn a lines).

(** The running brace balance after line [j]: the initial imbalance plus
    the net curly balance of every line after [start] up to [j]. *)
Definition running_balance (initial : Z) (lines : list str) (start j : nat) : Z :=
  initial
  + fold_right Z.add 0
      (map (fun l => get_balance l curly) (lines_between lines (start + 1) j)).

Definition remove_char (c : ascii) (s : str) : str :=
  filter (fun x => negb (Ascii.eqb x c)) s.

Definition count_char (c : ascii) (s : str) : nat :=
  List.length (filter (Ascii.eqb c) s).

(** [first_index] and [last_index] compute the two indices. *)
Fixpoint first_index (c : ascii) (s : str) : option nat :=
  match s with
  | [] => None
  | x :: r => if Ascii.eqb x c then Some O
              else option_map S (first_index c r)
  end.

Fixpoint last_index (c : ascii) (s : str) : option nat :=
  match s with
  | [] => None
  | x :: r => match last_index c r with
              | Some n => Some (S n)
              | None => if Ascii.eqb x c then Some O else None
              end
  end.

(** The four extractors, and the selection of one of them as the
    specification words it: a line with an opening brace goes to the
    curly one-liner when its braces balance and to the curly multi-line
    extractor otherwise; else a line that, stripped, ends with a colon
    goes to the indentation-block extractor; else a line that, stripped,
    ends with neither a semicolon nor an ellipsis and whose parentheses
    balance goes to the bare one-liner; else no extractor applies. *)
Inductive extractor :=
| CurlyOneliner
| CurlyMultiline
| IndentationBlock
| BareOneliner.

Definition select (line : str) : option extractor :=
  if contains "{" line then
    if get_balance line curly =? 0 then Some CurlyOneliner
    else Some CurlyMultiline
  else if endswith (lit ":") (strip line) then Some IndentationBlock
  else if negb (endswith (lit ";") (strip line)
                || endswith (lit "...") (strip line))
          && (get_balance line round =? 0) then Some BareOneliner
  else None.

(** An extractor run on the header line [line] found at cursor [i]. *)
Definition run_extractor (e : extractor) (lines : list str) (i : Z)
    (line : str) : outcome extraction :=
  match e with
  | CurlyOneliner => Ok (extract_curly_oneliner i line line)
  | CurlyMultiline =>
      extract_curly_function i (get_balance line curly) line lines
  | IndentationBlock => extract_python_function i line line lines
  | BareOneliner => Ok (extract_clean_oneliner i line line)
  end.

(** The record list after an extraction for the token [name]. *)
Definition record (name : str) (methods : list method) (body clean_body : str)
    : list method :=
  match strip clean_body with
  | [] => methods
  | _ :: _ => methods ++ [(name, body)]
  end.

(** A line belongs to the block of a header of indentation [ident]. *)
Definition qualifies (ident : Z) (l : str) : Prop := ident + 4 <= get_ident l.

(** A blank line: a line without any character other than spaces, or
    the empty line as [readlines] returns it, a lone newline. *)
Definition newline : ascii := "010".

Definition blank_line (l : str) : Prop :=
  (forall c, In c l -> c = " "%char) \/ l = [newline].

(** A line as [readlines] returns it, with its newline. *)
Definition text_line (s : string) : str := lit s ++ [newline].

(** An extraction returned, with its cursor between [start] and the
    last line index. *)
Definition cursor_within (start : Z) (lines : list str)
    (r : outcome extraction) : Prop :=
  exists c body clean_body,
    r = Ok (c, body, clean_body) /\ start <= c <= len lines - 1.

(* ================================================================== *)
(** * Corpus driver *)
(* ================================================================== *)

(** [a == b] on strings. *)
Fixpoint str_eqb (a b : str) : bool :=
  match a, b with
  | [], [] => true
  | x :: a', y :: b' => Ascii.eqb x y && str_eqb a' b'
  | _, _ => false
  end.

(** A [dict] with string keys, in insertion order. *)
Definition dict (V : Type) : Type := list (str * V).

(** [k in d] *)
Definition dict_mem {V} (k : str) (d : dict V) : bool :=
  existsb (fun kv => str_eqb (fst kv) k) d.

(** [d[k] = v] for a key that is not in [d]: the new key comes last. *)
Definition dict_add {V} (k : str) (v : V) (d : dict V) : dict V :=
  d ++ [(k, v)].

(** An update in place of the value stored under [k]. *)
Fixpoint dict_modify {V} (k : str) (f : V -> V) (d : dict V) : dict V :=
  match d with
  | [] => []
  | (k', v) :: r =>
      if str_eqb k' k then (k', f v) :: r else (k', v) :: dict_modify k f r
  end.

(** [sorted(l, key=key)]: the sort is stable, so its result is the one
    that insertion of each element before the later elements of equal
    key gives. *)
Fixpoint insert_sorted {A} (key : A -> Z) (x : A) (l : list A) : list A :=
  match l with
  | [] => [x]
  | y :: r => if key y <? key x then y :: insert_sorted key x r
              else x :: y :: r
  end.

Definition sorted {A} (key : A -> Z) (l : list A) : list A :=
  fold_right (insert_sorted key) [] l.

Section Corpus.

(** The file system: [os.walk(directory)] yields (root, dirs, files);
    [os.path.join] and [os.path.splitext] are the library's. *)
Variable walk : str -> list (str * list str * list str).
Variable join : str -> str -> str.
Variable splitext : str -> str * str.

Definition get_files (directory : str) : list str :=
  fold_left
    (fun res '(root, dirs, files) =>
       fold_left (fun res filename => res ++ [join root filename]) files res)
    (walk directory) [].

(** [os.path.splitext(file_name)[-1]] *)
Definition get_extension (file_name : str) : str := snd (splitext file_name).

(** The body of the loop of [get_file_extensions]; a value [[n, file]]
    is the pair [(n, file)].  The key is in [counter] when
    [counter[ext][0] += 1] runs. *)
Definition count_extension (counter : dict (Z * str)) (file : str)
    : dict (Z * str) :=
  let ext := get_extension file in
  let counter :=
    if negb (dict_mem ext counter) then dict_add ext (0, file) counter
    else counter in
  dict_modify ext (fun v => (fst v + 1, snd v)) counter.

Definition get_file_extensions (directory : str) : list (str * (Z * str)) :=
  let counter := fold_left count_extension (get_files directory) [] in
  sorted (fun x => - fst (snd x)) counter.

Definition get_files_by_extension (directory ext : str) : list str :=
  flat_map
    (fun '(_, _, files) =>
       filter (fun file => str_eqb (get_extension file) ext) files)
    (walk directory).

Variable Token : Type.
Variable is_Name_Function : Token -> bool.
Variable get_lexer_for_filename : str -> outcome (lexer Token).
Variable readlines : str -> outcome (list str).

(** The loop of [get_methods] over the files. *)
Fixpoint get_methods_loop (files : list str) (methods : list method)
    (missed : Z) : outcome (list method * Z) :=
  match files with
  | [] => Ok (methods, missed)
  | file :: rest =>
      '(add_methods, add_missed) <-
        process_filename is_Name_Function get_lexer_for_filename readlines file ;;
      let missed := missed + add_missed in
      let methods := methods ++ add_methods in
      get_methods_loop rest methods missed
  end.

Definition get_methods (directory : str) : outcome (list method * Z) :=
  let methods := [] in
  let missed := 0 in
  let files := get_files directory in
  get_methods_loop files methods missed.

End Corpus.

Arguments get_methods_loop {Token}.
Arguments get_methods walk join {Token}.

(* ================================================================== *)
(** * Vocabulary of the further properties *)
(* ================================================================== *)

(** The text of the first function-name token of a token list. *)
Definition first_function_name {Token} (is_Name_Function : Token -> bool)
    (tokens : list (Token * str)) : option str :=
  option_map snd (List.find (fun t => is_Name_Function (fst t)) tokens).

(** [attributed lo methods]: the records are, in order, the texts of
    disjoint ranges [i .. c] of lines, none starting before line [lo],
    each named after the first function-name token of its first line. *)
Inductive attributed {Token} (is_Name_Function : Token -> bool)
    (get_tokens : lexer Token) (lines : list str)
    : nat -> list method -> Prop :=
| attributed_nil (lo : nat) :
    attributed is_Name_Function get_tokens lines lo []
| attributed_cons (lo i c : nat) (line name : str) (rest : list method) :
    (lo <= i <= c)%nat -> (c < List.length lines)%nat ->
    nth_error lines i = Some line ->
    first_function_name is_Name_Function (get_tokens line) = Some name ->
    attributed is_Name_Function get_tokens lines (S c) rest ->
    attributed is_Name_Function get_tokens lines lo
      ((name, concat (lines_between lines i c)) :: rest).

(** The lines that carry a function-name token. *)
Definition token_lines {Token} (is_Name_Function : Token -> bool)
    (get_tokens : lexer Token) (lines : list str) : list str :=
  filter (fun line => existsb (fun t => is_Name_Function (fst t))
                        (get_tokens line)) lines.

(** How many files have the extension [ext], and the first that has. *)
Definition with_extension (splitext : str -> str * str) (ext : str)
    (files : list str) : list str :=
  filter (fun f => str_eqb (get_extension splitext f) ext) files.

(** [d.get(k)]: the value stored under [k], if there is one. *)
Fixpoint dict_get {V} (k : str) (d : dict V) : option V :=
  match d with
  | [] => None
  | (k', v) :: r => if str_eqb k' k then Some v else dict_get k r
  end.

(** What is to be known of an extension after the files [files]: how
    many of them have it, and the first that has. *)
Definition extension_entry (splitext : str -> str * str) (ext : str)
    (files : list str) : option (Z * str) :=
  match with_extension splitext ext files with
  | [] => None
  | f :: r => Some (Z.of_nat (List.length (f :: r)), f)
  end.

(** The sum of the counts of an extension table. *)
Definition total_count (table : list (str * (Z * str))) : Z :=
  fold_right Z.add 0 (map (fun x => fst (snd x)) table).

(** What the counting loop keeps true of its table after the files [p]. *)
Definition table_of (splitext : str -> str * str) (p : list str)
    (counter : dict (Z * str)) : Prop :=
  NoDup (map fst counter)
  /\ (forall ext, dict_get ext counter = extension_entry splitext ext p)
  /\ total_count counter = len p.

(** No entry of the table has a smaller count than a later entry. *)
Fixpoint descending (table : list (str * (Z * str))) : Prop :=
  match table with
  | [] => True
  | x :: r => (forall y, In y r -> fst (snd y) <= fst (snd x)) /\ descending r
  end.

(* ================================================================== *)
(** * Facts about the Python primitives *)
(* ================================================================== *)

Lemma len_nonneg {A} (l : list A) : 0 <= len l.
Proof. unfold len. lia. Qed.

Lemma getitem_nat {A} (l : list A) (n : nat) (x : A) :
  nth_error l n = Some x -> getitem l (Z.of_nat n) = Ok x.
Proof.
  intros H. unfold getitem, len.
  assert (n < List.length l)%nat by (apply nth_error_Some; congruence).
  destruct (Z.ltb_spec (Z.of_nat n) 0); [lia|].
  destruct (Z.leb_spec 0 (Z.of_nat n)); [|lia].
  destruct (Z.ltb_spec (Z.of_nat n) (Z.of_nat (List.length l))); [|lia].
  simpl. rewrite Nat2Z.id, H. reflexivity.
Qed.

Lemma getitem_in_range {A} (l : list A) (i : Z) :
  0 <= i < len l -> exists x, getitem l i = Ok x /\ nth_error l (Z.to_nat i) = Some x.
Proof.
  intros H. unfold len in H.
  destruct (nth_error l (Z.to_nat i)) as [x|] eqn:E.
  - exists x. split; [|reflexivity].
    rewrite <- (Z2Nat.id i) by lia. now apply getitem_nat.
  - apply nth_error_None in E. lia.
Qed.

Lemma clamp_nat (n i : nat) : (i <= n)%nat -> clamp (Z.of_nat n) (Z.of_nat i) = Z.of_nat i.
Proof.
  intros H. unfold clamp.
  destruct (Z.ltb_spec (Z.of_nat i) 0); lia.
Qed.

Lemma slice_nat {A} (l : list A) (a b : nat) :
  (a <= List.length l)%nat -> (b <= List.length l)%nat ->
  slice l (Z.of_nat a) (Z.of_nat b) = firstn (b - a) (skipn a l).
Proof.
  intros Ha Hb. unfold slice, len.
  rewrite !clamp_nat by assumption.
  rewrite Nat2Z.id. f_equal. lia.
Qed.

Lemma slice_lines_between (lines : list str) (a b : nat) :
  (a <= List.length lines)%nat -> (b < List.length lines)%nat ->
  slice lines (Z.of_nat a) (Z.of_nat b + 1) = lines_between lines a b.
Proof.
  intros Ha Hb. replace (Z.of_nat b + 1) with (Z.of_nat (b + 1)) by lia.
  rewrite slice_nat by lia. reflexivity.
Qed.

Lemma replace_remove (c : ascii) (s : str) : replace c [] s = remove_char c s.
Proof.
  unfold replace, remove_char.
  induction s as [|x r IH]; simpl; [reflexivity|].
  destruct (Ascii.eqb x c); simpl; now rewrite IH.
Qed.

Lemma remove_char_absent (c : ascii) (s : str) : ~ In c (remove_char c s).
Proof.
  unfold remove_char. intros H. apply filter_In in H as [_ H].
  rewrite Ascii.eqb_refl in H. discriminate.
Qed.

Lemma remove_char_keeps (c d : ascii) (s : str) :
  c <> d -> count_char d (remove_char c s) = count_char d s.
Proof.
  intros Hcd. unfold count_char, remove_char.
  induction s as [|x r IH]; simpl; [reflexivity|].
  destruct (Ascii.eqb_spec x c) as [->|Hx]; simpl.
  - destruct (Ascii.eqb_spec d c) as [->|_]; [congruence|exact IH].
  - destruct (Ascii.eqb d x); simpl; now rewrite IH.
Qed.

Lemma contains_In (c : ascii) (s : str) : contains c s = true <-> In c s.
Proof.
  unfold contains. rewrite existsb_exists. split.
  - intros (x & Hx & E). apply Ascii.eqb_eq in E. now subst.
  - intros H. exists c. split; [assumption|apply Ascii.eqb_refl].
Qed.

(* ================================================================== *)
(** * Curly one-liner *)
(* ================================================================== *)

Lemma first_index_spec (c : ascii) (s : str) (n : nat) :
  first_index c s = Some n -> is_first_index c s n.
Proof.
  revert n. induction s as [|x r IH]; simpl; intros n H; [discriminate|].
  destruct (Ascii.eqb_spec x c) as [->|Hx].
  - injection H as <-. split; [reflexivity|]. intros k Hk. lia.
  - destruct (first_index c r) as [m|]; [|discriminate].
    injection H as <-. destruct (IH m eq_refl) as [H1 H2].
    split; [exact H1|].
    intros [|k] Hk; simpl; [congruence|]. apply H2. lia.
Qed.

Lemma first_index_some (c : ascii) (s : str) :
  In c s -> exists n, first_index c s = Some n.
Proof.
  induction s as [|x r IH]; simpl; [contradiction|].
  intros H. destruct (Ascii.eqb_spec x c) as [->|Hx]; [now exists O|].
  destruct H as [H|H]; [contradiction|].
  destruct (IH H) as [n ->]. now exists (S n).
Qed.

Lemma last_index_spec (c : ascii) (s : str) (n : nat) :
  last_index c s = Some n -> is_last_index c s n.
Proof.
  revert n. induction s as [|x r IH]; simpl; intros n H; [discriminate|].
  destruct (last_index c r) as [m|] eqn:E.
  - injection H as <-. destruct (IH m eq_refl) as [H1 H2].
    split; [exact H1|].
    intros [|k] Hk; [lia|]. simpl. apply H2. lia.
  - destruct (Ascii.eqb_spec x c) as [->|Hx]; [|discriminate].
    injection H as <-. split; [reflexivity|].
    intros [|k] Hk; [lia|]. simpl. intros Hn.
    assert (Hin : In c r) by (eapply nth_error_In; eassumption).
    clear - E Hin. induction r as [|y r IH]; [contradiction|].
    simpl in E. destruct (last_index c r); [discriminate|].
    destruct (Ascii.eqb_spec y c) as [->|Hy]; [discriminate|].
    destruct Hin as [Hin|Hin]; [contradiction|]. now apply IH.
Qed.

Lemma last_index_some (c : ascii) (s : str) :
  In c s -> exists n, last_index c s = Some n.
Proof.
  induction s as [|x r IH]; simpl; [contradiction|].
  intros H. destruct (last_index c r) as [m|]; [now exists (S m)|].
  destruct (Ascii.eqb_spec x c) as [->|Hx]; [now exists O|].
  destruct H as [H|H]; [contradiction|].
  destruct (IH H) as [n Hn]. discriminate.
Qed.

Lemma last_index_lt (c : ascii) (s : str) (n : nat) :
  last_index c s = Some n -> (n < List.length s)%nat.
Proof.
  intros H. apply last_index_spec in H as [H _].
  apply nth_error_Some. congruence.
Qed.

Lemma first_index_lt (c : ascii) (s : str) (n : nat) :
  first_index c s = Some n -> (n < List.length s)%nat.
Proof.
  intros H. apply first_index_spec in H as [H _].
  apply nth_error_Some. congruence.
Qed.

(** What the [enumerate] loop leaves in its two variables. *)
Lemma oneliner_scan_spec (line : str) (i sc ec : Z) :
  0 <= i ->
  oneliner_scan line i sc ec =
  ((if sc =? -1 then
      match first_index "{" line with
      | Some n => i + Z.of_nat n + 1
      | None => -1
      end
    else sc),
   match last_index "}" line with
   | Some n => i + Z.of_nat n
   | None => ec
   end).
Proof.
  revert i sc ec. induction line as [|c r IH]; intros i sc ec Hi; simpl.
  - destruct (Z.eqb_spec sc (-1)); congruence.
  - rewrite IH by lia.
    destruct (Ascii.eqb_spec c "{") as [->|Hc]; simpl.
    + destruct (Z.eqb_spec sc (-1)) as [->|Hsc]; simpl.
      * destruct (Z.eqb_spec (i + 1) (-1)); [lia|].
        f_equal; [lia|]. destruct (last_index "}" r); [lia|reflexivity].
      * destruct (Z.eqb_spec sc (-1)); [contradiction|].
        f_equal. destruct (last_index "}" r); [lia|reflexivity].
    + f_equal.
      * destruct (Z.eqb_spec sc (-1)); [|reflexivity].
        destruct (first_index "{" r); simpl; [lia|reflexivity].
      * destruct (last_index "}" r); [lia|].
        destruct (Ascii.eqb c "}"); [lia|reflexivity].
Qed.

Lemma get_balance_cons (c : ascii) (r : str) (b : braces) :
  get_balance (c :: r) b
  = (if Ascii.eqb c (br_open b) then 1
     else if Ascii.eqb c (br_close b) then -1 else 0) + get_balance r b.
Proof. reflexivity. Qed.

(** A line without a closing brace has a non-negative balance, positive
    as soon as it has an opening one. *)
Lemma balance_without_close (line : str) :
  ~ In "}"%char line ->
  0 <= get_balance line curly /\ (In "{"%char line -> 0 < get_balance line curly).
Proof.
  induction line as [|c r IH]; intros H.
  - split; [reflexivity|contradiction].
  - rewrite get_balance_cons. cbn [br_open br_close curly].
    destruct IH as [IH1 IH2]; [intros Hr; apply H; now right|].
    destruct (Ascii.eqb_spec c "{") as [->|Hc].
    + split; [lia|intros _; lia].
    + destruct (Ascii.eqb_spec c "}") as [->|Hc']; [exfalso; apply H; now left|].
      split; [lia|]. intros [E|Hin]; [congruence|]. specialize (IH2 Hin). lia.
Qed.

(** C5.  On a line that contains an opening brace and whose net curly
    balance is 0, [extract_curly_oneliner] returns the cursor it was
    given, the header as full text, and as clean body the characters of
    the line from the index after the first opening brace up to, and
    not including, the index of the last closing brace; on
    ["int f() { return 1; }"] that clean body is [" return 1; "]. *)
Theorem extract_curly_oneliner_spec :
  (forall (start : Z) (header line : str),
     contains "{" line = true ->
     get_balance line curly = 0 ->
     exists n1 n2 : nat,
       is_first_index "{" line n1 /\ is_last_index "}" line n2 /\
       extract_curly_oneliner start header line
       = (start, header, substring_between (n1 + 1) n2 line))
  /\ (forall (start : Z) (header : str),
        extract_curly_oneliner start header (lit "int f() { return 1; }")
        = (start, header, lit " return 1; ")).
Proof.
  split; [|reflexivity].
  intros start header line Hc Hb.
  apply contains_In in Hc.
  assert (Hclose : In "}"%char line).
  { destruct (in_dec ascii_dec "}"%char line) as [H|H]; [exact H|].
    destruct (balance_without_close line H) as [_ H2]. specialize (H2 Hc). lia. }
  destruct (first_index_some _ _ Hc) as [n1 H1].
  destruct (last_index_some _ _ Hclose) as [n2 H2].
  exists n1, n2.
  split; [now apply first_index_spec|]. split; [now apply last_index_spec|].
  unfold extract_curly_oneliner.
  rewrite oneliner_scan_spec by lia. simpl. rewrite H1, H2.
  apply first_index_lt in H1. apply last_index_lt in H2.
  replace (Z.of_nat n1 + 1) with (Z.of_nat (n1 + 1)) by lia.
  rewrite slice_nat by lia. reflexivity.
Qed.

Lemma extract_curly_oneliner_spec_witness :
  exists n1 n2 : nat,
    is_first_index "{" (lit "a{b{c}d}e") n1 /\
    is_last_index "}" (lit "a{b{c}d}e") n2 /\
    extract_curly_oneliner 3 (lit "a{b{c}d}e") (lit "a{b{c}d}e")
    = (3, lit "a{b{c}d}e", substring_between (n1 + 1) n2 (lit "a{b{c}d}e")).
Proof.
  apply (proj1 extract_curly_oneliner_spec 3 (lit "a{b{c}d}e") (lit "a{b{c}d}e"));
    reflexivity.
Defined.

(* ================================================================== *)
(** * Bare one-liner *)
(* ================================================================== *)

Lemma find_from_absent (c : ascii) (s : str) (i : Z) :
  ~ In c s -> find_from c s i = -1.
Proof.
  revert i. induction s as [|x r IH]; intros i H; simpl; [reflexivity|].
  destruct (Ascii.eqb_spec x c) as [->|Hx]; [exfalso; apply H; now left|].
  apply IH. intros Hr. apply H. now right.
Qed.

Lemma find_from_first (c : ascii) (pre post : str) (i : Z) :
  ~ In c pre -> find_from c (pre ++ c :: post) i = i + len pre.
Proof.
  revert i. induction pre as [|x r IH]; intros i H; simpl.
  - rewrite Ascii.eqb_refl. unfold len. simpl. lia.
  - destruct (Ascii.eqb_spec x c) as [->|Hx]; [exfalso; apply H; now left|].
    rewrite IH by (intros Hr; apply H; now right).
    unfold len. simpl List.length. lia.
Qed.

Lemma slice_from_nat {A} (l : list A) (n : nat) :
  (n <= List.length l)%nat -> slice_from l (Z.of_nat n) = skipn n l.
Proof.
  intros H. unfold slice_from, len. rewrite clamp_nat by assumption.
  now rewrite Nat2Z.id.
Qed.

Lemma skipn_past_separator {A} (pre post : list A) (x : A) :
  skipn (List.length pre + 1) (pre ++ x :: post) = post.
Proof. induction pre as [|y r IH]; simpl; [reflexivity|exact IH]. Qed.

(** C6.  [extract_clean_oneliner] returns the cursor it was given and the
    line itself as full text.  Its clean body is what follows the first
    [=] of the line, and the whole line when the line has no [=]; on
    ["val x = compute()"] it is [" compute()"]. *)
Theorem extract_clean_oneliner_spec :
  (forall (start : Z) (header pre post : str),
     ~ In "="%char pre ->
     extract_clean_oneliner start header (pre ++ "="%char :: post)
     = (start, pre ++ "="%char :: post, post))
  /\ (forall (start : Z) (header line : str),
        ~ In "="%char line ->
        extract_clean_oneliner start header line = (start, line, line))
  /\ (forall (start : Z) (header : str),
        extract_clean_oneliner start header (lit "val x = compute()")
        = (start, lit "val x = compute()", lit " compute()")).
Proof.
  split; [|split]; [| |reflexivity].
  - intros start header pre post H. unfold extract_clean_oneliner, find.
    rewrite find_from_first by assumption.
    replace (0 + len pre + 1) with (Z.of_nat (List.length pre + 1))
      by (unfold len; lia).
    rewrite slice_from_nat by (rewrite length_app; simpl; lia).
    now rewrite skipn_past_separator.
  - intros start header line H. unfold extract_clean_oneliner, find.
    rewrite find_from_absent by assumption.
    f_equal. apply (slice_from_nat line 0). lia.
Qed.

Lemma extract_clean_oneliner_spec_witness :
  extract_clean_oneliner 5 (lit "fun f(a) = a == b") (lit "fun f(a) = a == b")
  = (5, lit "fun f(a) = a == b", lit " a == b")
  /\ extract_clean_oneliner 5 (lit "fun g()") (lit "fun g()")
     = (5, lit "fun g()", lit "fun g()").
Proof.
  split.
  - apply (proj1 extract_clean_oneliner_spec 5 (lit "fun f(a) = a == b")
             (lit "fun f(a) ") (lit " a == b")).
    vm_compute. intuition discriminate.
  - apply (proj1 (proj2 extract_clean_oneliner_spec) 5 (lit "fun g()") (lit "fun g()")).
    vm_compute. intuition discriminate.
Defined.

(* ================================================================== *)
(** * Curly multi-line *)
(* ================================================================== *)

Lemma firstn_snoc {A} (l : list A) (n : nat) (x : A) :
  nth_error l n = Some x -> firstn (S n) l = firstn n l ++ [x].
Proof.
  revert n. induction l as [|y r IH]; intros [|n] H; simpl in *;
    try discriminate.
  - now injection H as ->.
  - now rewrite (IH n H).
Qed.

Lemma lines_between_empty (lines : list str) (a : nat) :
  lines_between lines (a + 1) a = [].
Proof. unfold lines_between. now rewrite Nat.sub_diag. Qed.

Lemma lines_between_snoc (lines : list str) (a b : nat) (l : str) :
  (a <= b + 1)%nat -> nth_error lines (b + 1) = Some l ->
  lines_between lines a (b + 1) = lines_between lines a b ++ [l].
Proof.
  intros Hab Hl. unfold lines_between.
  replace (b + 1 + 1 - a)%nat with (S (b + 1 - a)) by lia.
  apply firstn_snoc. rewrite nth_error_skipn.
  now replace (a + (b + 1 - a))%nat with (b + 1)%nat by lia.
Qed.

Lemma sum_app (l1 l2 : list Z) :
  fold_right Z.add 0 (l1 ++ l2) = fold_right Z.add 0 l1 + fold_right Z.add 0 l2.
Proof. induction l1 as [|x r IH]; simpl; [reflexivity|]. rewrite IH. lia. Qed.

Lemma running_balance_start (initial : Z) (lines : list str) (start : nat) :
  running_balance initial lines start start = initial.
Proof.
  unfold running_balance. rewrite lines_between_empty. simpl. lia.
Qed.

Lemma running_balance_step (initial : Z) (lines : list str) (start k : nat) (l : str) :
  (start <= k)%nat -> nth_error lines (k + 1) = Some l ->
  running_balance initial lines start (k + 1)
  = running_balance initial lines start k + get_balance l curly.
Proof.
  intros Hk Hl. unfold running_balance.
  rewrite (lines_between_snoc lines (start + 1) k l) by (assumption || lia).
  rewrite map_app, sum_app. simpl. lia.
Qed.

(** The loop, entered at line [k + 1] with the balance accumulated up to
    line [k], stops at the first line [j] where the balance is 0. *)
Lemma curly_for_closing (header : str) (lines : list str) (initial : Z)
    (start j : nat) :
  (j < List.length lines)%nat ->
  running_balance initial lines start j = 0 ->
  (forall k, (start < k < j)%nat -> running_balance initial lines start k <> 0) ->
  forall d k, (k + 1 + d = j)%nat -> (start <= k)%nat ->
  curly_for header lines (Z.of_nat start) (List.length lines - (k + 1))
    (Z.of_nat (k + 1)) (running_balance initial lines start k)
  = Ok (Z.of_nat j,
        header ++ concat (lines_between lines (start + 1) j),
        remove_char "}" (concat (lines_between lines (start + 1) j))).
Proof.
  intros Hj Hzero Hfirst d.
  induction d as [|d IH]; intros k Hd Hk.
  - assert (j = k + 1)%nat as -> by lia.
    destruct (List.length lines - (k + 1))%nat as [|n] eqn:En; [lia|].
    destruct (nth_error lines (k + 1)) as [l|] eqn:El;
      [|apply nth_error_None in El; lia].
    simpl. rewrite (getitem_nat _ _ _ El). simpl.
    rewrite <- (running_balance_step initial lines start k l Hk El), Hzero.
    simpl. rewrite replace_remove.
    replace (Z.of_nat start + 1) with (Z.of_nat (start + 1)) by lia.
    rewrite slice_lines_between by lia. reflexivity.
  - destruct (List.length lines - (k + 1))%nat as [|n] eqn:En; [lia|].
    destruct (nth_error lines (k + 1)) as [l|] eqn:El;
      [|apply nth_error_None in El; lia].
    simpl. rewrite (getitem_nat _ _ _ El). simpl.
    rewrite <- (running_balance_step initial lines start k l Hk El).
    destruct (Z.eqb_spec (running_balance initial lines start (k + 1)) 0) as [E|_].
    + exfalso. apply (Hfirst (k + 1)%nat); [lia|exact E].
    + replace n with (List.length lines - (k + 1 + 1))%nat by lia.
      replace (Z.of_nat (k + 1) + 1) with (Z.of_nat (k + 1 + 1)) by lia.
      apply IH; lia.
Qed.

(** The loop, entered at line [k + 1], falls off the end of the file when
    the balance is 0 at no later line. *)
Lemma curly_for_hanging (header : str) (lines : list str) (initial : Z)
    (start : nat) :
  (forall k, (start < k < List.length lines)%nat ->
             running_balance initial lines start k <> 0) ->
  forall n k, (n = List.length lines - (k + 1))%nat -> (start <= k)%nat ->
  curly_for header lines (Z.of_nat start) n
    (Z.of_nat (k + 1)) (running_balance initial lines start k)
  = Ok (len lines - 1, [], []).
Proof.
  intros Hnever n. induction n as [|n IH]; intros k Hn Hk; [reflexivity|].
  destruct (nth_error lines (k + 1)) as [l|] eqn:El;
    [|apply nth_error_None in El; lia].
  simpl. rewrite (getitem_nat _ _ _ El). simpl.
  rewrite <- (running_balance_step initial lines start k l Hk El).
  destruct (Z.eqb_spec (running_balance initial lines start (k + 1)) 0) as [E|_].
  - exfalso. apply (Hnever (k + 1)%nat); [lia|exact E].
  - replace (Z.of_nat (k + 1) + 1) with (Z.of_nat (k + 1 + 1)) by lia.
    apply IH; lia.
Qed.

Lemma curly_range (lines : list str) (start : nat) :
  Z.to_nat (len lines - (Z.of_nat start + 1))
  = (List.length lines - (start + 1))%nat.
Proof. unfold len. lia. Qed.

(** C1.  When line [j], after the header at [start], is the first line
    at which the running balance is exactly 0, [extract_curly_function]
    returns the cursor [j], the header followed by the lines [start + 1]
    through [j] as full text, and as clean body those lines with every
    closing brace removed: the clean body has no closing brace and as
    many opening braces as the lines have. *)
Theorem extract_curly_function_closing (start j : nat) (initial : Z)
    (header : str) (lines : list str) :
  (start < j < List.length lines)%nat ->
  running_balance initial lines start j = 0 ->
  (forall k, (start < k < j)%nat -> running_balance initial lines start k <> 0) ->
  exists clean_body,
    extract_curly_function (Z.of_nat start) initial header lines
    = Ok (Z.of_nat j,
          header ++ concat (lines_between lines (start + 1) j),
          clean_body)
    /\ clean_body = remove_char "}" (concat (lines_between lines (start + 1) j))
    /\ ~ In "}"%char clean_body
    /\ count_char "{" clean_body
       = count_char "{" (concat (lines_between lines (start + 1) j)).
Proof.
  intros [Hs Hj] Hzero Hfirst.
  exists (remove_char "}" (concat (lines_between lines (start + 1) j))).
  split; [|split; [reflexivity|split]].
  - unfold extract_curly_function. rewrite curly_range.
    replace (Z.of_nat start + 1) with (Z.of_nat (start + 1)) by lia.
    rewrite <- (running_balance_start initial lines start) at 1.
    apply (curly_for_closing header lines initial start j Hj Hzero Hfirst
             (j - start - 1) start); lia.
  - apply remove_char_absent.
  - apply remove_char_keeps. discriminate.
Qed.

Lemma extract_curly_function_closing_witness :
  exists clean_body,
    extract_curly_function 0 1 (lit "void f() {")
      [lit "void f() {"; lit "  if (x) {"; lit "  }"; lit "}"; lit "int y;"]
    = Ok (3, lit "void f() {  if (x) {  }}", clean_body)
    /\ clean_body = lit "  if (x) {  "
    /\ ~ In "}"%char clean_body
    /\ count_char "{" clean_body = 1%nat.
Proof.
  apply (extract_curly_function_closing 0 3 1 (lit "void f() {")
           [lit "void f() {"; lit "  if (x) {"; lit "  }"; lit "}"; lit "int y;"]).
  - simpl; lia.
  - reflexivity.
  - intros k Hk. assert (k = 1 \/ k = 2)%nat as [-> | ->] by lia;
      vm_compute; discriminate.
Defined.

(** C3.  When the running balance is 0 at no line after the header,
    [extract_curly_function] returns the last line index [len(lines) - 1]
    with an empty full text and an empty clean body; the locator, on a
    header with an opening brace and a nonzero balance, then leaves the
    miss counter and the record list as they were. *)
Theorem extract_curly_function_hanging (start : nat) (initial : Z)
    (header : str) (lines : list str) :
  (forall k, (start < k < List.length lines)%nat ->
             running_balance initial lines start k <> 0) ->
  extract_curly_function (Z.of_nat start) initial header lines
  = Ok (len lines - 1, [], [])
  /\ forall (line name : str) (methods : list method) (missed : Z),
       contains "{" line = true ->
       get_balance line curly = initial ->
       initial <> 0 ->
       handle_function lines (Z.of_nat start) line name methods missed
       = Ok (len lines - 1, methods, missed).
Proof.
  intros Hnever.
  assert (Hx : forall h, extract_curly_function (Z.of_nat start) initial h lines
                         = Ok (len lines - 1, [], [])).
  { intros h. unfold extract_curly_function. rewrite curly_range.
    replace (Z.of_nat start + 1) with (Z.of_nat (start + 1)) by lia.
    rewrite <- (running_balance_start initial lines start) at 1.
    now apply curly_for_hanging. }
  split; [apply Hx|].
  intros line name methods missed Hc Hb Hnz.
  unfold handle_function, dispatch. rewrite Hc, Hb.
  destruct (Z.eqb_spec initial 0) as [|_]; [contradiction|].
  simpl. rewrite Hx. reflexivity.
Qed.

Lemma extract_curly_function_hanging_witness :
  extract_curly_function 1 1 (lit "void f() {")
    [lit "int x;"; lit "void f() {"; lit "  if (x) {"; lit "  }"]
  = Ok (3, [], [])
  /\ handle_function
       [lit "int x;"; lit "void f() {"; lit "  if (x) {"; lit "  }"]
       1 (lit "void f() {") (lit "f") [] 0
     = Ok (3, [], 0).
Proof.
  destruct (extract_curly_function_hanging 1 1 (lit "void f() {")
              [lit "int x;"; lit "void f() {"; lit "  if (x) {"; lit "  }"])
    as [H1 H2].
  - intros k Hk. simpl in Hk.
    assert (k = 2 \/ k = 3)%nat as [-> | ->] by lia; vm_compute; discriminate.
  - split; [exact H1|].
    apply H2; [reflexivity|reflexivity|discriminate].
Defined.

(* ================================================================== *)
(** * Indentation block *)
(* ================================================================== *)

Lemma first_non_space_all_spaces (l : str) (i : Z) :
  (forall c, In c l -> c = " "%char) -> first_non_space l i = None.
Proof.
  revert i. induction l as [|x r IH]; intros i H; simpl; [reflexivity|].
  rewrite (H x) by now left. simpl. apply IH. intros c Hc. apply H. now right.
Qed.

Lemma first_non_space_found (pre post : str) (c : ascii) (i : Z) :
  (forall x, In x pre -> x = " "%char) -> c <> " "%char ->
  first_non_space (pre ++ c :: post) i = Some (i + len pre).
Proof.
  revert i. induction pre as [|x r IH]; intros i H Hc; simpl.
  - destruct (Ascii.eqb_spec c " "); [contradiction|].
    simpl. f_equal. unfold len. simpl. lia.
  - rewrite (H x) by now left. simpl.
    rewrite IH by (try assumption; intros y Hy; apply H; now right).
    f_equal. unfold len. simpl List.length. lia.
Qed.

Lemma first_non_space_lower (l : str) (i n : Z) :
  first_non_space l i = Some n -> i <= n.
Proof.
  revert i. induction l as [|x r IH]; intros i H; simpl in H; [discriminate|].
  destruct (negb (Ascii.eqb x " ")).
  - injection H as <-. lia.
  - apply IH in H. lia.
Qed.

Lemma get_ident_nonneg (l : str) : 0 <= get_ident l.
Proof.
  unfold get_ident. destruct (first_non_space l 0) as [n|] eqn:E; [|lia].
  now apply first_non_space_lower in E.
Qed.

Lemma get_ident_blank (l : str) : blank_line l -> get_ident l = 0.
Proof.
  intros [H | ->]; [|reflexivity].
  unfold get_ident. now rewrite first_non_space_all_spaces.
Qed.

(** The [while] loop, with fuel for the lines that remain, stops after
    the longest run of qualifying lines. *)
Lemma python_while_run (lines : list str) (ident : Z) (fuel : nat) :
  forall j : nat,
  (List.length lines <= j + fuel)%nat ->
  exists k : nat,
    python_while fuel lines ident (Z.of_nat j) = Ok (Z.of_nat (j + k))
    /\ (k = 0 \/ j + k < List.length lines)%nat
    /\ (forall m l, (1 <= m <= k)%nat ->
          nth_error lines (j + m) = Some l -> qualifies ident l)
    /\ (forall l, nth_error lines (j + k + 1) = Some l -> ~ qualifies ident l).
Proof.
  induction fuel as [|fuel IH]; intros j Hfuel.
  - exists 0%nat. assert (E : (Z.of_nat j + 1 <? len lines) = false)
      by (apply Z.ltb_ge; unfold len; lia).
    simpl. rewrite E, Nat.add_0_r.
    split; [reflexivity|]. split; [now left|]. split; [intros; lia|].
    intros l Hl. assert (j + 1 < List.length lines)%nat
      by (apply nth_error_Some; congruence). lia.
  - simpl. destruct (Z.ltb_spec (Z.of_nat j + 1) (len lines)) as [Hlt|Hge].
    + unfold len in Hlt.
      destruct (nth_error lines (j + 1)) as [next|] eqn:En;
        [|apply nth_error_None in En; lia].
      replace (Z.of_nat j + 1) with (Z.of_nat (j + 1)) by lia.
      rewrite (getitem_nat _ _ _ En). simpl. rewrite Z.geb_leb.
      destruct (Z.leb_spec (ident + 4) (get_ident next)) as [Hq|Hq].
      * destruct (IH (j + 1)%nat) as (k & Hrun & Hk & Hall & Hstop); [lia|].
        exists (S k). replace (j + S k)%nat with (j + 1 + k)%nat by lia.
        split; [exact Hrun|]. split; [right; lia|]. split.
        -- intros m l Hm Hl. destruct (Nat.eq_dec m 1) as [->|Hm1].
           ++ rewrite En in Hl. injection Hl as <-. exact Hq.
           ++ apply (Hall (m - 1)%nat); [lia|].
              now replace (j + 1 + (m - 1))%nat with (j + m)%nat by lia.
        -- intros l Hl. now apply Hstop.
      * exists 0%nat. rewrite Nat.add_0_r.
        split; [reflexivity|]. split; [now left|]. split; [intros; lia|].
        intros l Hl. rewrite En in Hl. injection Hl as <-.
        unfold qualifies. lia.
    + exists 0%nat. rewrite Nat.add_0_r. unfold len in Hge.
      split; [reflexivity|]. split; [now left|]. split; [intros; lia|].
      intros l Hl. assert (j + 1 < List.length lines)%nat
        by (apply nth_error_Some; congruence). lia.
Qed.

(** The fuel [extract_python_function] supplies is never exhausted,
    wherever the loop starts. *)
Lemma python_while_fuel (lines : list str) (ident : Z) (fuel : nat) :
  forall j : Z,
  (Z.to_nat (len lines - j) <= fuel)%nat ->
  python_while fuel lines ident j <> OutOfFuel.
Proof.
  induction fuel as [|fuel IH]; intros j Hfuel; simpl.
  - destruct (Z.ltb_spec (j + 1) (len lines)); [lia|discriminate].
  - destruct (Z.ltb_spec (j + 1) (len lines)); [|discriminate].
    unfold getitem.
    destruct ((0 <=? (if j + 1 <? 0 then j + 1 + len lines else j + 1))
              && ((if j + 1 <? 0 then j + 1 + len lines else j + 1) <? len lines));
      [|discriminate].
    destruct (nth_error lines _) as [next|]; [|discriminate].
    simpl. destruct (get_ident next >=? ident + 4); [|discriminate].
    apply IH. lia.
Qed.

Lemma extract_python_function_total (start : Z) (header line : str)
    (lines : list str) :
  extract_python_function start header line lines <> OutOfFuel.
Proof.
  unfold extract_python_function.
  pose proof (python_while_fuel lines (get_ident line)
                (Z.to_nat (len lines - start)) start (Nat.le_refl _)) as H.
  destruct (python_while _ lines (get_ident line) start); simpl;
    [discriminate|discriminate|contradiction].
Qed.

(** C4.  From a header at [start], [extract_python_function] consumes
    the longest run of [k] following lines whose indentation is at least
    the indentation of the header plus 4: each of them qualifies and the
    line after them, if there is one, does not.  The cursor returned is
    [start + k] (the header itself when [k = 0]), the full text is the
    header followed by the consumed lines, the clean body is the
    consumed lines.  A blank line ends the run.  The indentation of a
    line is the index of its first character that is not a space, and 0
    when it has none. *)
Theorem extract_python_function_block :
  (forall (start : nat) (header line : str) (lines : list str),
     (start < List.length lines)%nat ->
     exists k : nat,
       extract_python_function (Z.of_nat start) header line lines
       = Ok (Z.of_nat (start + k),
             header ++ concat (lines_between lines (start + 1) (start + k)),
             concat (lines_between lines (start + 1) (start + k)))
       /\ (start + k < List.length lines)%nat
       /\ (forall m l, (1 <= m <= k)%nat ->
             nth_error lines (start + m) = Some l ->
             qualifies (get_ident line) l)
       /\ (forall l, nth_error lines (start + k + 1) = Some l ->
             ~ qualifies (get_ident line) l)
       /\ (forall m l, (1 <= m)%nat ->
             nth_error lines (start + m) = Some l ->
             blank_line l -> (k < m)%nat))
  /\ (forall (pre post : str) (c : ascii),
        (forall x, In x pre -> x = " "%char) -> c <> " "%char ->
        get_ident (pre ++ c :: post) = len pre)
  /\ (forall l : str, (forall x, In x l -> x = " "%char) -> get_ident l = 0).
Proof.
  split; [|split].
  - intros start header line lines Hstart.
    destruct (python_while_run lines (get_ident line)
                (List.length lines - start) start)
      as (k & Hrun & Hk & Hall & Hstop); [lia|].
    exists k. unfold extract_python_function.
    replace (Z.to_nat (len lines - Z.of_nat start))
      with (List.length lines - start)%nat by (unfold len; lia).
    rewrite Hrun. simpl.
    assert (Hlt : (start + k < List.length lines)%nat) by lia.
    replace (Z.of_nat start + 1) with (Z.of_nat (start + 1)) by lia.
    rewrite slice_lines_between by lia.
    split; [reflexivity|]. split; [exact Hlt|].
    split; [exact Hall|]. split; [exact Hstop|].
    intros m l Hm Hl Hblank.
    destruct (Nat.lt_ge_cases k m) as [|Hle]; [assumption|exfalso].
    assert (Hq : qualifies (get_ident line) l) by (apply (Hall m); [lia|exact Hl]).
    unfold qualifies in Hq. rewrite (get_ident_blank l Hblank) in Hq.
    pose proof (get_ident_nonneg line). lia.
  - intros pre post c Hpre Hc. unfold get_ident.
    rewrite first_non_space_found by assumption. lia.
  - intros l Hl. unfold get_ident. now rewrite first_non_space_all_spaces.
Qed.

Lemma extract_python_function_block_witness :
  exists k : nat,
    extract_python_function 1 (lit "def f():") (lit "def f():")
      [lit "x = 1"; lit "def f():"; lit "    a = 1"; lit "    return a";
       [newline]; lit "    b = 2"]
    = Ok (Z.of_nat (1 + k),
          lit "def f():"
          ++ concat (lines_between
               [lit "x = 1"; lit "def f():"; lit "    a = 1"; lit "    return a";
                [newline]; lit "    b = 2"] 2 (1 + k)),
          concat (lines_between
               [lit "x = 1"; lit "def f():"; lit "    a = 1"; lit "    return a";
                [newline]; lit "    b = 2"] 2 (1 + k)))
    /\ (k < 3)%nat.
Proof.
  destruct (proj1 extract_python_function_block 1%nat (lit "def f():") (lit "def f():")
              [lit "x = 1"; lit "def f():"; lit "    a = 1"; lit "    return a";
               [newline]; lit "    b = 2"])
    as (k & Hrun & _ & _ & _ & Hblank).
  - simpl; lia.
  - exists k. split; [exact Hrun|].
    apply (Hblank 3%nat [newline]); [lia|reflexivity|now right].
Defined.

(* ================================================================== *)
(** * The cursor *)
(* ================================================================== *)

Lemma extract_curly_oneliner_shape (start : Z) (header line : str) :
  exists clean_body,
    extract_curly_oneliner start header line = (start, header, clean_body).
Proof.
  unfold extract_curly_oneliner.
  destruct (oneliner_scan line 0 (-1) (-1)) as [sc ec]. now eexists.
Qed.

Lemma curly_for_cursor (header : str) (lines : list str) (start : Z) (n : nat) :
  forall (j : nat) (curly_balance : Z),
  (j + n = List.length lines)%nat ->
  exists c body clean_body,
    curly_for header lines start n (Z.of_nat j) curly_balance
    = Ok (c, body, clean_body)
    /\ (Z.of_nat j <= c <= len lines - 1 \/ c = len lines - 1).
Proof.
  induction n as [|n IH]; intros j bal Hn.
  - simpl. eexists _, _, _. split; [reflexivity|now right].
  - destruct (nth_error lines j) as [l|] eqn:El;
      [|apply nth_error_None in El; lia].
    simpl. rewrite (getitem_nat _ _ _ El). simpl.
    destruct (bal + get_balance l curly =? 0).
    + eexists _, _, _. split; [reflexivity|]. left. unfold len. lia.
    + replace (Z.of_nat j + 1) with (Z.of_nat (j + 1)) by lia.
      destruct (IH (j + 1)%nat (bal + get_balance l curly))
        as (c & b & cb & Hrun & Hc); [lia|].
      exists c, b, cb. split; [exact Hrun|]. lia.
Qed.

Lemma extract_curly_function_cursor (start initial : Z) (header : str)
    (lines : list str) :
  0 <= start <= len lines - 1 ->
  cursor_within start lines (extract_curly_function start initial header lines).
Proof.
  intros Hs. unfold extract_curly_function, cursor_within.
  destruct (curly_for_cursor header lines start
              (Z.to_nat (len lines - (start + 1))) (Z.to_nat (start + 1)) initial)
    as (c & b & cb & Hrun & Hc); [unfold len in *; lia|].
  rewrite Z2Nat.id in Hrun, Hc by lia.
  exists c, b, cb. split; [exact Hrun|]. lia.
Qed.

Lemma extract_python_function_cursor (start : Z) (header line : str)
    (lines : list str) :
  0 <= start <= len lines - 1 ->
  cursor_within start lines (extract_python_function start header line lines).
Proof.
  intros Hs. unfold extract_python_function, cursor_within.
  destruct (python_while_run lines (get_ident line)
              (Z.to_nat (len lines - start)) (Z.to_nat start))
    as (k & Hrun & Hk & _); [unfold len in *; lia|].
  rewrite Z2Nat.id in Hrun by lia. rewrite Hrun. simpl.
  eexists _, _, _. split; [reflexivity|]. unfold len in *. lia.
Qed.

(** On a line of the file, the [if]/[elif] chain returns, and the cursor
    it returns lies between the line and the last line. *)
Lemma dispatch_cursor (lines : list str) (i : Z) (line : str) (missed : Z) :
  0 <= i <= len lines - 1 ->
  exists c body clean_body missed',
    dispatch lines i line missed = Ok ((c, body, clean_body), missed')
    /\ i <= c <= len lines - 1.
Proof.
  intros Hi. unfold dispatch.
  destruct (contains "{" line).
  - destruct (get_balance line curly =? 0); simpl.
    + destruct (extract_curly_oneliner_shape i line line) as [cb ->].
      eexists _, _, _, _. split; [reflexivity|lia].
    + destruct (extract_curly_function_cursor i (get_balance line curly)
                  line lines Hi) as (c & b & cb & -> & Hc).
      eexists _, _, _, _. split; [reflexivity|lia].
  - destruct (endswith (lit ":") (strip line)).
    + destruct (extract_python_function_cursor i line line lines Hi)
        as (c & b & cb & -> & Hc).
      eexists _, _, _, _. split; [reflexivity|lia].
    + destruct (negb (endswith (lit ";") (strip line))
                && negb (endswith (lit "...") (strip line))
                && (get_balance line round =? 0));
        eexists _, _, _, _; (split; [reflexivity|lia]).
Qed.

Lemma handle_function_cursor (lines : list str) (i : Z) (line name : str)
    (methods : list method) (missed : Z) :
  0 <= i <= len lines - 1 ->
  exists c methods' missed',
    handle_function lines i line name methods missed = Ok (c, methods', missed')
    /\ i <= c <= len lines - 1.
Proof.
  intros Hi. unfold handle_function.
  destruct (dispatch_cursor lines i line missed Hi)
    as (c & b & cb & m & -> & Hc).
  simpl. eexists _, _, _. split; [reflexivity|lia].
Qed.

(** C9.  Started at a cursor [start] with [0 <= start <= len(lines) - 1],
    each of the four extractors returns, and returns a cursor [c] with
    [start <= c <= len(lines) - 1]. *)
Theorem extractor_cursor_bounds (start : Z) (lines : list str) :
  0 <= start <= len lines - 1 ->
  (forall header line,
     cursor_within start lines (Ok (extract_curly_oneliner start header line)))
  /\ (forall initial header,
        cursor_within start lines
          (extract_curly_function start initial header lines))
  /\ (forall header line,
        cursor_within start lines
          (extract_python_function start header line lines))
  /\ (forall header line,
        cursor_within start lines (Ok (extract_clean_oneliner start header line))).
Proof.
  intros Hs. repeat split.
  - intros header line.
    destruct (extract_curly_oneliner_shape start header line) as [cb ->].
    eexists _, _, _. split; [reflexivity|lia].
  - intros initial header. now apply extract_curly_function_cursor.
  - intros header line. now apply extract_python_function_cursor.
  - intros header line. eexists _, _, _. split; [reflexivity|lia].
Qed.

Lemma extractor_cursor_bounds_witness :
  cursor_within 1 [lit "a {"; lit "b {"; lit "}"; lit "c"]
    (extract_curly_function 1 1 (lit "b {") [lit "a {"; lit "b {"; lit "}"; lit "c"]).
Proof.
  apply (extractor_cursor_bounds 1 [lit "a {"; lit "b {"; lit "}"; lit "c"]).
  vm_compute. split; discriminate.
Defined.

(* ================================================================== *)
(** * The locator *)
(* ================================================================== *)

Lemma lstrip_nil (s : str) :
  lstrip s = [] <-> (forall c, In c s -> isspace c = true).
Proof.
  induction s as [|x r IH]; simpl.
  - split; [intros _ c []|reflexivity].
  - destruct (isspace x) eqn:Ex.
    + rewrite IH. split.
      * intros H c [<-|Hc]; [exact Ex|now apply H].
      * intros H c Hc. apply H. now right.
    + split; [discriminate|]. intros H. rewrite (H x) in Ex by now left.
      discriminate.
Qed.

Lemma lstrip_head (s r : str) (c : ascii) :
  lstrip s = c :: r -> isspace c = false.
Proof.
  induction s as [|x s' IH]; simpl; [discriminate|].
  destruct (isspace x) eqn:Ex; [exact IH|].
  intros H. injection H as <- _. exact Ex.
Qed.

(** Trimming leaves nothing exactly when every character is whitespace. *)
Lemma strip_nil (s : str) :
  strip s = [] <-> (forall c, In c s -> isspace c = true).
Proof.
  unfold strip, rstrip. split.
  - intros H. apply lstrip_nil.
    destruct (lstrip s) as [|c r] eqn:E; [reflexivity|exfalso].
    apply lstrip_head in E.
    assert (H' : lstrip (rev (c :: r)) = []).
    { apply (f_equal (@rev ascii)) in H. rewrite rev_involutive in H. exact H. }
    rewrite lstrip_nil in H'. rewrite (H' c) in E; [discriminate|].
    apply in_rev. rewrite rev_involutive. now left.
  - intros H. apply lstrip_nil in H. rewrite H. reflexivity.
Qed.

(** The [if]/[elif] chain follows [select]. *)
Lemma handle_function_select (lines : list str) (i : Z) (line name : str)
    (methods : list method) (missed : Z) :
  handle_function lines i line name methods missed
  = match select line with
    | Some e =>
        '(c, body, clean_body) <- run_extractor e lines i line ;;
        Ok (c, record name methods body clean_body, missed)
    | None => Ok (i, methods, missed + 1)
    end.
Proof.
  unfold handle_function, dispatch, select, record.
  destruct (contains "{" line).
  - destruct (get_balance line curly =? 0); simpl.
    + now destruct (extract_curly_oneliner i line line) as [[c b] cb].
    + now destruct (extract_curly_function i (get_balance line curly) line lines)
        as [[[c b] cb]| |].
  - destruct (endswith (lit ":") (strip line)).
    + simpl.
      now destruct (extract_python_function i line line lines) as [[[c b] cb]| |].
    + rewrite negb_orb.
      now destruct (negb (endswith (lit ";") (strip line))
                    && negb (endswith (lit "...") (strip line))
                    && (get_balance line round =? 0)).
Qed.

(** The token loop hands the first function-name token to
    [handle_function] and looks at no later token. *)
Lemma for_tokens_first {Token} (is_Name_Function : Token -> bool)
    (pre post : list (Token * str)) (token : Token) (name : str)
    (lines : list str) (i : Z) (line : str) (methods : list method) (missed : Z) :
  (forall t, In t pre -> is_Name_Function (fst t) = false) ->
  is_Name_Function token = true ->
  for_tokens is_Name_Function (pre ++ (token, name) :: post)
    lines i line methods missed
  = handle_function lines i line name methods missed.
Proof.
  intros Hpre Htok. induction pre as [|[t s] pre IH]; simpl.
  - now rewrite Htok.
  - pose proof (Hpre (t, s) (or_introl eq_refl)) as E. simpl in E. rewrite E.
    apply IH. intros x Hx. apply Hpre. now right.
Qed.

Lemma for_tokens_none {Token} (is_Name_Function : Token -> bool)
    (tokens : list (Token * str))
    (lines : list str) (i : Z) (line : str) (methods : list method) (missed : Z) :
  (forall t, In t tokens -> is_Name_Function (fst t) = false) ->
  for_tokens is_Name_Function tokens lines i line methods missed
  = Ok (i, methods, missed).
Proof.
  intros H. induction tokens as [|[t s] r IH]; simpl; [reflexivity|].
  pose proof (H (t, s) (or_introl eq_refl)) as E. simpl in E. rewrite E.
  apply IH. intros x Hx. apply H. now right.
Qed.

(** A token list either has no function-name token or splits at its
    first one. *)
Lemma first_function_token {Token} (is_Name_Function : Token -> bool)
    (tokens : list (Token * str)) :
  (forall t, In t tokens -> is_Name_Function (fst t) = false)
  \/ exists pre token name post,
       tokens = pre ++ (token, name) :: post
       /\ (forall t, In t pre -> is_Name_Function (fst t) = false)
       /\ is_Name_Function token = true.
Proof.
  induction tokens as [|[t s] r IH].
  - left. intros t [].
  - destruct (is_Name_Function t) eqn:Et.
    + right. exists [], t, s, r. split; [reflexivity|]. split; [intros x []|exact Et].
    + destruct IH as [IH|(pre & tok & name & post & -> & Hpre & Htok)].
      * left. intros x [<-|Hx]; [exact Et|now apply IH].
      * right. exists ((t, s) :: pre), tok, name, post.
        split; [reflexivity|]. split; [|exact Htok].
        intros x [<-|Hx]; [exact Et|now apply Hpre].
Qed.

(** C2.  On a line whose first function-name token is [name], the
    locator runs exactly the extractor that [select] names for the line
    and leaves the miss counter alone; when [select] names none, it adds
    1 to the miss counter, keeps the cursor and appends no record.  So
    the miss counter grows exactly when no extractor applies. *)
Theorem locator_selects_one_extractor {Token} (is_Name_Function : Token -> bool)
    (pre post : list (Token * str)) (token : Token) (name : str)
    (lines : list str) (i : Z) (line : str) (methods : list method) (missed : Z) :
  (forall t, In t pre -> is_Name_Function (fst t) = false) ->
  is_Name_Function token = true ->
  for_tokens is_Name_Function (pre ++ (token, name) :: post)
    lines i line methods missed
  = match select line with
    | Some e =>
        '(c, body, clean_body) <- run_extractor e lines i line ;;
        Ok (c, record name methods body clean_body, missed)
    | None => Ok (i, methods, missed + 1)
    end
  /\ forall c methods' missed',
       for_tokens is_Name_Function (pre ++ (token, name) :: post)
         lines i line methods missed = Ok (c, methods', missed') ->
       (missed' = missed + 1 <-> select line = None)
       /\ (missed' = missed \/ missed' = missed + 1)
       /\ (select line = None -> methods' = methods).
Proof.
  intros Hpre Htok.
  rewrite (for_tokens_first is_Name_Function pre post token name
             lines i line methods missed Hpre Htok).
  rewrite handle_function_select. split; [reflexivity|].
  intros c methods' missed'.
  destruct (select line) as [e|].
  - destruct (run_extractor e lines i line) as [[[c0 b] cb]| |]; simpl;
      intros H; try discriminate.
    injection H as _ _ <-. split; [|split].
    + split; [lia|discriminate].
    + now left.
    + discriminate.
  - intros H. injection H as _ <- <-. split; [|split].
    + split; reflexivity.
    + now right.
    + reflexivity.
Qed.

Lemma locator_selects_one_extractor_witness :
  for_tokens (fun t : bool => t)
    [(false, lit "void"); (true, lit "f"); (true, lit "g")]
    [lit "void f(int a,"; lit "  int b) {"] 0 (lit "void f(int a,") [] 0
  = Ok (0, [], 1).
Proof.
  apply (locator_selects_one_extractor (fun t : bool => t)
           [(false, lit "void")] [(true, lit "g")] true (lit "f")
           [lit "void f(int a,"; lit "  int b) {"] 0 (lit "void f(int a,") [] 0).
  - intros t [<-|[]]. reflexivity.
  - reflexivity.
Defined.

(** C7.  When an extractor was selected for a function-name token and
    returned a cursor, a full text and a clean body, the locator appends
    the record (name, full text) exactly when the clean body, trimmed of
    leading and trailing whitespace, is not empty, that is, when it has
    a character that is not whitespace; otherwise the record list is
    left as it was, whatever boundary the extractor found. *)
Theorem record_iff_clean_body (e : extractor) (lines : list str) (i : Z)
    (line name : str) (methods : list method) (missed : Z)
    (c : Z) (body clean_body : str) :
  select line = Some e ->
  run_extractor e lines i line = Ok (c, body, clean_body) ->
  exists methods',
    handle_function lines i line name methods missed = Ok (c, methods', missed)
    /\ (strip clean_body <> [] <-> methods' = methods ++ [(name, body)])
    /\ (strip clean_body = [] <-> methods' = methods)
    /\ (strip clean_body <> []
        <-> exists x, In x clean_body /\ isspace x = false).
Proof.
  intros Hsel Hrun. rewrite handle_function_select, Hsel, Hrun. simpl.
  exists (record name methods body clean_body). split; [reflexivity|].
  assert (Hneq : methods ++ [(name, body)] <> methods).
  { intros H. apply (f_equal (@List.length method)) in H.
    rewrite length_app in H. simpl in H. lia. }
  unfold record. destruct (strip clean_body) as [|x r] eqn:E.
  - split; [|split].
    + split; [congruence|]. intros H. symmetry in H. contradiction.
    + split; reflexivity.
    + split; [congruence|]. intros (x & Hx & Hsp).
      rewrite strip_nil in E. rewrite (E x Hx) in Hsp. discriminate.
  - split; [|split].
    + split; [reflexivity|discriminate].
    + split; [discriminate|]. intros H. contradiction.
    + split; [|discriminate]. intros _.
      destruct (existsb (fun x => negb (isspace x)) clean_body) eqn:Ex.
      * apply existsb_exists in Ex as (y & Hy & Hsp).
        exists y. split; [exact Hy|]. now destruct (isspace y).
      * assert (Hall : strip clean_body = []).
        { apply strip_nil. intros y Hy.
          destruct (isspace y) eqn:Ey; [reflexivity|].
          assert (existsb (fun x => negb (isspace x)) clean_body = true)
            by (apply existsb_exists; exists y; now rewrite Ey).
          congruence. }
        congruence.
Qed.

Lemma record_iff_clean_body_witness :
  exists methods',
    handle_function [lit "int f() { }"] 0 (lit "int f() { }") (lit "f") [] 0
    = Ok (0, methods', 0)
    /\ (strip (lit " ") <> [] <-> methods' = [] ++ [(lit "f", lit "int f() { }")])
    /\ (strip (lit " ") = [] <-> methods' = [])
    /\ (strip (lit " ") <> [] <-> exists x, In x (lit " ") /\ isspace x = false).
Proof.
  apply (record_iff_clean_body CurlyOneliner [lit "int f() { }"] 0
           (lit "int f() { }") (lit "f") [] 0 0 (lit "int f() { }") (lit " "));
    reflexivity.
Defined.

(** C8.  When the body of [process_filename] raises [UnicodeDecodeError]
    or [ClassNotFound], [process_filename] returns the empty record list
    and the miss count 0 instead of raising.  That is what happens when
    no lexer is found for the file name, and when the lexer is found and
    reading the lines fails to decode. *)
Theorem process_filename_skips {Token} (is_Name_Function : Token -> bool)
    (get_lexer_for_filename : str -> outcome (lexer Token))
    (readlines : str -> outcome (list str)) (filename : str) :
  (forall e,
     process_filename_try is_Name_Function get_lexer_for_filename readlines
       filename = Raise e ->
     e = UnicodeDecodeError \/ e = ClassNotFound ->
     process_filename is_Name_Function get_lexer_for_filename readlines filename
     = Ok ([], 0))
  /\ (get_lexer_for_filename filename = Raise ClassNotFound ->
      process_filename is_Name_Function get_lexer_for_filename readlines filename
      = Ok ([], 0))
  /\ (forall get_tokens,
        get_lexer_for_filename filename = Ok get_tokens ->
        readlines filename = Raise UnicodeDecodeError ->
        process_filename is_Name_Function get_lexer_for_filename readlines filename
        = Ok ([], 0)).
Proof.
  split; [|split].
  - intros e Htry [-> | ->]; unfold process_filename; now rewrite Htry.
  - intros H. unfold process_filename, process_filename_try. now rewrite H.
  - intros get_tokens Hl Hr.
    unfold process_filename, process_filename_try. now rewrite Hl, Hr.
Qed.

Lemma process_filename_skips_witness :
  process_filename (fun t : bool => t)
    (fun name => if contains "." name then Ok (fun _ => []) else Raise ClassNotFound)
    (fun _ => Raise UnicodeDecodeError) (lit "Makefile")
  = Ok ([], 0)
  /\ process_filename (fun t : bool => t)
       (fun name => if contains "." name then Ok (fun _ => []) else Raise ClassNotFound)
       (fun _ => Raise UnicodeDecodeError) (lit "a.class")
     = Ok ([], 0).
Proof.
  split.
  - apply (proj1 (proj2 (process_filename_skips (fun t : bool => t)
             (fun name => if contains "." name then Ok (fun _ => [])
                          else Raise ClassNotFound)
             (fun _ => Raise UnicodeDecodeError) (lit "Makefile")))).
    reflexivity.
  - apply (proj2 (proj2 (process_filename_skips (fun t : bool => t)
             (fun name => if contains "." name then Ok (fun _ => [])
                          else Raise ClassNotFound)
             (fun _ => Raise UnicodeDecodeError) (lit "a.class")))
             (fun _ => [])); reflexivity.
Defined.

(* ================================================================== *)
(** * Termination of the scan *)
(* ================================================================== *)

(** On a line of the file the token loop returns; the cursor is the one
    it was given when the line has no function-name token, and the one
    [handle_function] returns for the first such token otherwise. *)
Lemma for_tokens_cursor {Token} (is_Name_Function : Token -> bool)
    (tokens : list (Token * str)) (lines : list str) (i : Z) (line : str)
    (methods : list method) (missed : Z) :
  0 <= i <= len lines - 1 ->
  exists c methods' missed',
    for_tokens is_Name_Function tokens lines i line methods missed
    = Ok (c, methods', missed')
    /\ i <= c <= len lines - 1
    /\ (((forall t, In t tokens -> is_Name_Function (fst t) = false)
         /\ c = i /\ methods' = methods /\ missed' = missed)
        \/ (exists pre token name post,
              tokens = pre ++ (token, name) :: post
              /\ (forall t, In t pre -> is_Name_Function (fst t) = false)
              /\ is_Name_Function token = true
              /\ handle_function lines i line name methods missed
                 = Ok (c, methods', missed'))).
Proof.
  intros Hi.
  destruct (first_function_token is_Name_Function tokens)
    as [Hnone|(pre & token & name & post & -> & Hpre & Htok)].
  - exists i, methods, missed. rewrite for_tokens_none by assumption.
    split; [reflexivity|]. split; [lia|]. left. auto.
  - rewrite for_tokens_first by assumption.
    destruct (handle_function_cursor lines i line name methods missed Hi)
      as (c & m' & ms' & Hrun & Hc).
    exists c, m', ms'. split; [exact Hrun|]. split; [exact Hc|].
    right. exists pre, token, name, post. auto.
Qed.

Lemma scan_step_progress {Token} (is_Name_Function : Token -> bool)
    (get_tokens : lexer Token) (lines : list str) (i : Z)
    (methods : list method) (missed : Z) :
  0 <= i < len lines ->
  exists i' methods' missed',
    scan_step is_Name_Function get_tokens lines i methods missed
    = Ok (i', methods', missed')
    /\ i < i' <= len lines.
Proof.
  intros Hi. unfold scan_step.
  destruct (getitem_in_range lines i Hi) as (line & -> & _). simpl.
  destruct (for_tokens_cursor is_Name_Function (get_tokens line) lines i line
              methods missed) as (c & m' & ms' & -> & Hc & _); [lia|].
  simpl. exists (c + 1), m', ms'. split; [reflexivity|lia].
Qed.

Lemma scan_loop_exit {Token} (is_Name_Function : Token -> bool)
    (fuel : nat) (get_tokens : lexer Token) (lines : list str) (i : Z)
    (methods : list method) (missed : Z) :
  len lines <= i ->
  scan_loop is_Name_Function fuel get_tokens lines i methods missed
  = Ok (methods, missed).
Proof.
  intros Hi. apply Z.ltb_ge in Hi. destruct fuel; simpl; now rewrite Hi.
Qed.

(** With as much fuel as lines remain, the loop returns, and more fuel
    does not change what it returns. *)
Lemma scan_loop_returns {Token} (is_Name_Function : Token -> bool)
    (get_tokens : lexer Token) (lines : list str) (n : nat) :
  forall (i : Z) (methods : list method) (missed : Z),
  0 <= i -> (Z.to_nat (len lines - i) <= n)%nat ->
  exists result,
    forall fuel, (Z.to_nat (len lines - i) <= fuel)%nat ->
    scan_loop is_Name_Function fuel get_tokens lines i methods missed
    = Ok result.
Proof.
  induction n as [|n IH]; intros i methods missed Hi Hn.
  - exists (methods, missed). intros fuel _. apply scan_loop_exit. lia.
  - destruct (Z.lt_ge_cases i (len lines)) as [Hlt|Hge].
    + destruct (scan_step_progress is_Name_Function get_tokens lines i
                  methods missed) as (i' & m' & ms' & Hstep & Hi'); [lia|].
      destruct (IH i' m' ms') as [result Hres]; [lia|lia|].
      exists result. intros [|fuel] Hfuel; [lia|].
      simpl. apply Z.ltb_lt in Hlt. rewrite Hlt, Hstep. simpl.
      apply Hres. lia.
    + exists (methods, missed). intros fuel _. now apply scan_loop_exit.
Qed.

(** C10.  The scan of a file terminates, whatever the lines and the
    tokens.  In an iteration at a line [i] of the file, the token loop
    returns a cursor [c]: [i] itself and an unchanged state when the line
    has no function-name token, the cursor of [handle_function], which is
    at least [i], otherwise; [c] is at most the last line index, and the
    iteration ends with the cursor [c + 1 > i].  Started at 0, the loop
    returns a result as soon as its fuel is the number of lines, and the
    same result with any more fuel. *)
Theorem scan_terminates {Token} (is_Name_Function : Token -> bool)
    (get_tokens : lexer Token) (lines : list str) :
  (forall (i : Z) (methods : list method) (missed : Z),
     0 <= i < len lines ->
     exists line c methods' missed',
       getitem lines i = Ok line
       /\ for_tokens is_Name_Function (get_tokens line) lines i line
            methods missed = Ok (c, methods', missed')
       /\ (((forall t, In t (get_tokens line) -> is_Name_Function (fst t) = false)
            /\ c = i /\ methods' = methods /\ missed' = missed)
           \/ (exists pre token name post,
                 get_tokens line = pre ++ (token, name) :: post
                 /\ (forall t, In t pre -> is_Name_Function (fst t) = false)
                 /\ is_Name_Function token = true
                 /\ handle_function lines i line name methods missed
                    = Ok (c, methods', missed')))
       /\ i <= c <= len lines - 1
       /\ scan_step is_Name_Function get_tokens lines i methods missed
          = Ok (c + 1, methods', missed'))
  /\ (exists result,
        forall fuel, (List.length lines <= fuel)%nat ->
        scan_loop is_Name_Function fuel get_tokens lines 0 [] 0 = Ok result).
Proof.
  split.
  - intros i methods missed Hi.
    destruct (getitem_in_range lines i Hi) as (line & Hline & _).
    destruct (for_tokens_cursor is_Name_Function (get_tokens line) lines i line
                methods missed) as (c & m' & ms' & Hrun & Hc & Hcases); [lia|].
    exists line, c, m', ms'. repeat (split; [assumption|]).
    unfold scan_step. rewrite Hline. simpl. rewrite Hrun. reflexivity.
  - destruct (scan_loop_returns is_Name_Function get_tokens lines
                (List.length lines) 0 [] 0) as [result Hres];
      [lia|unfold len; lia|].
    exists result. intros fuel Hfuel. apply Hres. unfold len. lia.
Qed.

Lemma scan_terminates_witness :
  exists c methods' missed',
    scan_step (fun t : bool => t)
      (fun line => [(false, lit "def"); (contains "(" line, lit "f")])
      [lit "def f():"; lit "    return 1"; lit "x = 2"] 0 [] 0
    = Ok (c + 1, methods', missed')
    /\ 0 <= c <= 2.
Proof.
  destruct (proj1 (scan_terminates (fun t : bool => t)
              (fun line => [(false, lit "def"); (contains "(" line, lit "f")])
              [lit "def f():"; lit "    return 1"; lit "x = 2"]) 0 [] 0)
    as (line & c & m' & ms' & _ & _ & _ & Hc & Hstep).
  - vm_compute. split; [discriminate|reflexivity].
  - exists c, m', ms'. split; [exact Hstep|exact Hc].
Defined.

(* ================================================================== *)
(** * Sample runs *)
(* ================================================================== *)

Example get_balance_sample :
  get_balance (lit "f(a, (b)) { if (c) {") curly = 2
  /\ get_balance (lit "f(a, (b)) { if (c) {") round = 0.
Proof. split; reflexivity. Qed.

Example extract_curly_function_sample :
  extract_curly_function 0 1 (text_line "void f() {")
    [text_line "void f() {"; text_line "  x=1;"; text_line "}"]
  = Ok (2, text_line "void f() {" ++ text_line "  x=1;" ++ text_line "}",
        text_line "  x=1;" ++ [newline]).
Proof. reflexivity. Qed.

Example extract_python_function_sample :
  extract_python_function 0 (text_line "def f():") (text_line "def f():")
    [text_line "def f():"; text_line "    a = 1"; text_line "        b = 2";
     text_line "x = 3"]
  = Ok (2, text_line "def f():" ++ text_line "    a = 1" ++ text_line "        b = 2",
        text_line "    a = 1" ++ text_line "        b = 2").
Proof. reflexivity. Qed.

(** A line of spaces followed by its newline has the indentation of its
    spaces, and continues a block when they are enough. *)
Example spaces_then_newline_sample :
  get_ident (text_line "    ") = 4
  /\ extract_python_function 0 (text_line "def f():") (text_line "def f():")
       [text_line "def f():"; text_line "    "; text_line ""; text_line "    a"]
     = Ok (1, text_line "def f():" ++ text_line "    ", text_line "    ").
Proof. split; reflexivity. Qed.

(** A file with a one-liner, a multi-line function, a declaration whose
    parameter list is left open, and a function whose body is only
    whitespace: two records, one miss. *)
Example process_filename_sample :
  process_filename (fun t : bool => t)
    (fun _ => Ok (fun line =>
                    [(false, lit "int"); (contains "(" line, lit "name")]))
    (fun _ => Ok [text_line "int a() { return 1; }";
                  text_line "int b() {";
                  text_line "  return 2;";
                  text_line "}";
                  text_line "int c(int x,";
                  text_line "int d() { }"])
    (lit "A.java")
  = Ok ([(lit "name", text_line "int a() { return 1; }");
         (lit "name", text_line "int b() {" ++ text_line "  return 2;"
                      ++ text_line "}")],
        1).
Proof. reflexivity. Qed.

(* ================================================================== *)
(** * Further properties: the balance scanner *)
(* ================================================================== *)

Lemma get_balance_app (a b : str) (br : braces) :
  get_balance (a ++ b) br = get_balance a br + get_balance b br.
Proof.
  unfold get_balance. rewrite map_app. apply sum_app.
Qed.

Lemma get_balance_concat (ls : list str) (br : braces) :
  get_balance (concat ls) br
  = fold_right Z.add 0 (map (fun l => get_balance l br) ls).
Proof.
  induction ls as [|l r IH]; simpl; [reflexivity|].
  now rewrite get_balance_app, IH.
Qed.

(** X1.  For a pair of two different characters, the balance of a line
    is the number of its opening characters minus the number of its
    closing ones. *)
Theorem get_balance_counts (line : str) (b : braces) :
  br_open b <> br_close b ->
  get_balance line b
  = Z.of_nat (count_char (br_open b) line)
    - Z.of_nat (count_char (br_close b) line).
Proof.
  intros Hneq. unfold count_char.
  induction line as [|c r IH]; [reflexivity|].
  rewrite get_balance_cons, IH. simpl filter.
  rewrite (Ascii.eqb_sym (br_open b) c), (Ascii.eqb_sym (br_close b) c).
  destruct (Ascii.eqb_spec c (br_open b)) as [->|Ho].
  - destruct (Ascii.eqb_spec (br_open b) (br_close b)); [contradiction|].
    simpl List.length. lia.
  - destruct (Ascii.eqb c (br_close b)); simpl List.length; lia.
Qed.

Lemma get_balance_counts_witness :
  get_balance (lit "f(a, (b)) { if (c) {") round
  = Z.of_nat (count_char "(" (lit "f(a, (b)) { if (c) {"))
    - Z.of_nat (count_char ")" (lit "f(a, (b)) { if (c) {")).
Proof.
  apply (get_balance_counts (lit "f(a, (b)) { if (c) {") round).
  discriminate.
Defined.

(** X2.  The balance of a text is the sum of the balances of its parts:
    of the two halves of a concatenation, and of the lines of a joined
    list of lines. *)
Theorem get_balance_additive (b : braces) :
  (forall s t : str,
     get_balance (s ++ t) b = get_balance s b + get_balance t b)
  /\ (forall ls : list str,
        get_balance (concat ls) b
        = fold_right Z.add 0 (map (fun l => get_balance l b) ls)).
Proof.
  split; [intros s t; apply get_balance_app|intros ls; apply get_balance_concat].
Qed.

(* ================================================================== *)
(** * Further properties: the curly multi-line extractor *)
(* ================================================================== *)

Lemma skipn_nth_error {A} (l : list A) (n : nat) (x : A) :
  nth_error l n = Some x -> skipn n l = x :: skipn (S n) l.
Proof.
  revert n. induction l as [|y r IH]; intros [|n] H; simpl in *;
    try discriminate.
  - now injection H as ->.
  - now apply IH.
Qed.

Lemma lines_between_cons (lines : list str) (a b : nat) (l : str) :
  (a <= b)%nat -> nth_error lines a = Some l ->
  lines_between lines a b = l :: lines_between lines (a + 1) b.
Proof.
  intros Hab Hl. unfold lines_between.
  rewrite (skipn_nth_error lines a l Hl).
  replace (b + 1 - a)%nat with (S (b + 1 - (a + 1))) by lia.
  simpl. now replace (a + 1)%nat with (S a) by lia.
Qed.

Lemma running_balance_shift (initial : Z) (lines : list str) (k j : nat) (l : str) :
  (k + 1 <= j)%nat -> nth_error lines (k + 1) = Some l ->
  running_balance initial lines k j
  = running_balance (initial + get_balance l curly) lines (k + 1) j.
Proof.
  intros Hj Hl. unfold running_balance.
  rewrite (lines_between_cons lines (k + 1) j l Hj Hl). simpl. lia.
Qed.

(** Whatever the loop returns is either the result of a block left
    hanging or the block closed at a line where the balance is 0. *)
Lemma curly_for_result (header : str) (lines : list str) (start : nat) (n : nat) :
  forall (k : nat) (bal c : Z) (body clean_body : str),
  (start <= k)%nat -> (n = List.length lines - (k + 1))%nat ->
  curly_for header lines (Z.of_nat start) n (Z.of_nat (k + 1)) bal
  = Ok (c, body, clean_body) ->
  (c = len lines - 1 /\ body = [] /\ clean_body = [])
  \/ exists j : nat,
       (k < j < List.length lines)%nat /\ c = Z.of_nat j
       /\ body = header ++ concat (lines_between lines (start + 1) j)
       /\ clean_body = remove_char "}" (concat (lines_between lines (start + 1) j))
       /\ running_balance bal lines k j = 0.
Proof.
  induction n as [|n IH]; intros k bal c body clean Hk Hn Hrun.
  - simpl in Hrun. injection Hrun as <- <- <-. now left.
  - destruct (nth_error lines (k + 1)) as [l|] eqn:El;
      [|apply nth_error_None in El; lia].
    simpl in Hrun. rewrite (getitem_nat _ _ _ El) in Hrun. simpl in Hrun.
    destruct (Z.eqb_spec (bal + get_balance l curly) 0) as [Hz|Hnz].
    + injection Hrun as <- <- <-. right. exists (k + 1)%nat.
      assert (k + 1 < List.length lines)%nat by (apply nth_error_Some; congruence).
      replace (Z.of_nat start + 1) with (Z.of_nat (start + 1)) by lia.
      rewrite slice_lines_between by lia. rewrite replace_remove.
      repeat split; try lia.
      rewrite (running_balance_step bal lines k k l (Nat.le_refl k) El).
      now rewrite running_balance_start.
    + replace (Z.of_nat (k + 1) + 1) with (Z.of_nat (k + 1 + 1)) in Hrun by lia.
      destruct (IH (k + 1)%nat _ c body clean ltac:(lia) ltac:(lia) Hrun)
        as [Hhang|(j & Hj & Hc & Hb & Hcb & Hbal)]; [now left|].
      right. exists j. repeat split; try assumption; try lia.
      rewrite (running_balance_shift bal lines k j l) by (assumption || lia).
      exact Hbal.
Qed.

Lemma extract_curly_function_result (start : nat) (initial c : Z)
    (header body clean_body : str) (lines : list str) :
  extract_curly_function (Z.of_nat start) initial header lines
  = Ok (c, body, clean_body) ->
  (c = len lines - 1 /\ body = [] /\ clean_body = [])
  \/ exists j : nat,
       (start < j < List.length lines)%nat /\ c = Z.of_nat j
       /\ body = header ++ concat (lines_between lines (start + 1) j)
       /\ clean_body = remove_char "}" (concat (lines_between lines (start + 1) j))
       /\ running_balance initial lines start j = 0.
Proof.
  unfold extract_curly_function. rewrite curly_range.
  replace (Z.of_nat start + 1) with (Z.of_nat (start + 1)) by lia.
  intros Hrun.
  apply (curly_for_result header lines start _ start initial c body clean_body
           (Nat.le_refl start) eq_refl Hrun).
Qed.

Lemma extract_curly_function_returns (start : nat) (initial : Z)
    (header : str) (lines : list str) :
  exists c body clean_body,
    extract_curly_function (Z.of_nat start) initial header lines
    = Ok (c, body, clean_body).
Proof.
  destruct (Nat.lt_ge_cases start (List.length lines)) as [Hlt|Hge].
  - destruct (extract_curly_function_cursor (Z.of_nat start) initial header lines)
      as (c & b & cb & Hrun & _); [unfold len; lia|].
    now exists c, b, cb.
  - unfold extract_curly_function. rewrite curly_range.
    replace (List.length lines - (start + 1))%nat with 0%nat by lia.
    simpl. now eexists _, _, _.
Qed.

(** X3.  From a cursor that is not negative, [extract_curly_function]
    started with the balance of the header returns a full text whose net
    curly balance is 0: the empty text, or the header and lines that
    close every brace they open. *)
Theorem extract_curly_function_balanced (start : nat) (header : str)
    (lines : list str) :
  exists c body clean_body,
    extract_curly_function (Z.of_nat start) (get_balance header curly)
      header lines = Ok (c, body, clean_body)
    /\ get_balance body curly = 0.
Proof.
  destruct (extract_curly_function_returns start (get_balance header curly)
              header lines) as (c & body & clean_body & Hrun).
  exists c, body, clean_body. split; [exact Hrun|].
  destruct (extract_curly_function_result start _ c header body clean_body lines Hrun)
    as [(_ & -> & _)|(j & _ & _ & -> & _ & Hbal)]; [reflexivity|].
  rewrite get_balance_app, get_balance_concat. exact Hbal.
Qed.

(* ================================================================== *)
(** * Further properties: the indentation-block extractor *)
(* ================================================================== *)

Lemma slice_same {A} (l : list A) (a : Z) : slice l a a = [].
Proof. unfold slice. now rewrite Z.sub_diag. Qed.

Lemma extract_python_function_run (start : nat) (header line : str)
    (lines : list str) :
  (start < List.length lines)%nat ->
  exists k : nat,
    extract_python_function (Z.of_nat start) header line lines
    = Ok (Z.of_nat (start + k),
          header ++ concat (lines_between lines (start + 1) (start + k)),
          concat (lines_between lines (start + 1) (start + k)))
    /\ (start + k < List.length lines)%nat
    /\ (forall l, nth_error lines (start + k + 1) = Some l ->
          ~ qualifies (get_ident line) l).
Proof.
  intros Hstart.
  destruct (python_while_run lines (get_ident line)
              (List.length lines - start) start)
    as (k & Hrun & Hk & _ & Hstop); [lia|].
  exists k. unfold extract_python_function.
  replace (Z.to_nat (len lines - Z.of_nat start))
    with (List.length lines - start)%nat by (unfold len; lia).
  rewrite Hrun. simpl.
  replace (Z.of_nat start + 1) with (Z.of_nat (start + 1)) by lia.
  rewrite slice_lines_between by lia.
  split; [reflexivity|]. split; [lia|exact Hstop].
Qed.

(** X4.  A header that is the last line of the file, or whose next line
    is indented by less than its own indentation plus 4, has an empty
    block: [extract_python_function] returns the cursor it was given,
    the header alone as full text and an empty clean body, and the
    locator, on such a header that ends with a colon and has no opening
    brace, appends no record and counts no miss. *)
Theorem extract_python_function_empty_block (start : nat) (line : str)
    (lines : list str) :
  (start < List.length lines)%nat ->
  (forall next, nth_error lines (start + 1) = Some next ->
                get_ident next < get_ident line + 4) ->
  (forall header,
     extract_python_function (Z.of_nat start) header line lines
     = Ok (Z.of_nat start, header, []))
  /\ (forall (name : str) (methods : list method) (missed : Z),
        contains "{" line = false ->
        endswith (lit ":") (strip line) = true ->
        handle_function lines (Z.of_nat start) line name methods missed
        = Ok (Z.of_nat start, methods, missed)).
Proof.
  intros Hstart Hnext.
  assert (Hx : forall header,
             extract_python_function (Z.of_nat start) header line lines
             = Ok (Z.of_nat start, header, [])).
  { intros header. unfold extract_python_function.
    destruct (Z.to_nat (len lines - Z.of_nat start)) as [|fuel] eqn:Ef;
      [unfold len in Ef; lia|].
    simpl python_while.
    destruct (Z.ltb_spec (Z.of_nat start + 1) (len lines)) as [Hlt|Hge].
    - unfold len in Hlt.
      destruct (nth_error lines (start + 1)) as [next|] eqn:En;
        [|apply nth_error_None in En; lia].
      replace (Z.of_nat start + 1) with (Z.of_nat (start + 1)) by lia.
      rewrite (getitem_nat _ _ _ En). simpl. rewrite Z.geb_leb.
      specialize (Hnext next eq_refl).
      destruct (Z.leb_spec (get_ident line + 4) (get_ident next)); [lia|].
      simpl. replace (Z.of_nat (start + 1)) with (Z.of_nat start + 1) by lia.
      rewrite slice_same. simpl. now rewrite app_nil_r.
    - simpl. rewrite slice_same. simpl. now rewrite app_nil_r. }
  split; [exact Hx|].
  intros name methods missed Hc He.
  unfold handle_function, dispatch. rewrite Hc, He. simpl. now rewrite Hx.
Qed.

Lemma extract_python_function_empty_block_witness :
  extract_python_function 1 (lit "if x:") (lit "if x:")
    [lit "def f():"; lit "if x:"; lit "  y = 1"]
  = Ok (1, lit "if x:", [])
  /\ handle_function [lit "def f():"; lit "if x:"; lit "  y = 1"] 1
       (lit "if x:") (lit "f") [] 0
     = Ok (1, [], 0).
Proof.
  destruct (extract_python_function_empty_block 1 (lit "if x:")
              [lit "def f():"; lit "if x:"; lit "  y = 1"]) as [H1 H2].
  - simpl; lia.
  - intros next Hn. injection Hn as <-. vm_compute. reflexivity.
  - split; [apply (H1 (lit "if x:"))|apply H2; reflexivity].
Defined.

(* ================================================================== *)
(** * Further properties: what a scan returns *)
(* ================================================================== *)

Lemma lines_between_single (lines : list str) (i : nat) (line : str) :
  nth_error lines i = Some line -> concat (lines_between lines i i) = line.
Proof.
  intros H. unfold lines_between.
  rewrite (skipn_nth_error lines i line H).
  replace (i + 1 - i)%nat with 1%nat by lia. simpl. apply app_nil_r.
Qed.

Lemma lines_between_header (lines : list str) (i c : nat) (line : str) :
  (i <= c)%nat -> nth_error lines i = Some line ->
  line ++ concat (lines_between lines (i + 1) c)
  = concat (lines_between lines i c).
Proof.
  intros Hc H. now rewrite (lines_between_cons lines i c line Hc H).
Qed.

(** What handling one function-name token on line [i] does to the state:
    the cursor stays in the file, and either one record is appended, the
    text of the lines [i .. c], or none is and the miss counter grows by
    at most 1. *)
Lemma handle_function_step (lines : list str) (i : nat) (line name : str)
    (methods methods' : list method) (missed missed' c : Z) :
  nth_error lines i = Some line ->
  handle_function lines (Z.of_nat i) line name methods missed
  = Ok (c, methods', missed') ->
  exists cn : nat,
    c = Z.of_nat cn /\ (i <= cn < List.length lines)%nat
    /\ ((methods' = methods /\ (missed' = missed \/ missed' = missed + 1))
        \/ (methods' = methods ++ [(name, concat (lines_between lines i cn))]
            /\ missed' = missed)).
Proof.
  intros Hline. assert (Hi : (i < List.length lines)%nat)
    by (apply nth_error_Some; congruence).
  rewrite handle_function_select.
  assert (Hrec : forall (cn : nat) body clean_body,
    (i <= cn < List.length lines)%nat ->
    (strip clean_body <> [] -> body = concat (lines_between lines i cn)) ->
    Ok (Z.of_nat cn, record name methods body clean_body, missed)
    = Ok (c, methods', missed') ->
    exists cn : nat,
      c = Z.of_nat cn /\ (i <= cn < List.length lines)%nat
      /\ ((methods' = methods /\ (missed' = missed \/ missed' = missed + 1))
          \/ (methods' = methods ++ [(name, concat (lines_between lines i cn))]
              /\ missed' = missed))).
  { intros cn body clean Hcn Hbody H. injection H as <- <- <-.
    exists cn. split; [reflexivity|]. split; [exact Hcn|].
    unfold record. destruct (strip clean) as [|x r].
    - left. auto.
    - right. rewrite Hbody by discriminate. auto. }
  destruct (select line) as [[| | |]|]; simpl.
  - destruct (extract_curly_oneliner_shape (Z.of_nat i) line line) as [cb ->].
    simpl. apply Hrec; [lia|]. intros _. symmetry.
    now apply lines_between_single.
  - destruct (extract_curly_function (Z.of_nat i) (get_balance line curly) line lines)
      as [[[c0 b] cb]| |] eqn:Hrun; simpl; try discriminate.
    destruct (extract_curly_function_result i _ c0 line b cb lines Hrun)
      as [(-> & -> & ->)|(j & Hj & -> & -> & -> & _)].
    + replace (len lines - 1) with (Z.of_nat (List.length lines - 1))
        by (unfold len; lia).
      apply Hrec; [lia|]. intros H. now contradiction H.
    + apply Hrec; [lia|]. intros _. apply lines_between_header; [lia|assumption].
  - destruct (extract_python_function_run i line line lines Hi)
      as (k & -> & Hk & _). simpl.
    apply Hrec; [lia|]. intros _. apply lines_between_header; [lia|assumption].
  - unfold extract_clean_oneliner. simpl. apply Hrec; [lia|]. intros _.
    symmetry. now apply lines_between_single.
  - intros H. injection H as <- <- <-. exists i.
    split; [reflexivity|]. split; [lia|]. left. auto.
Qed.

Lemma first_function_name_split {Token} (is_Name_Function : Token -> bool)
    (pre post : list (Token * str)) (token : Token) (name : str) :
  (forall t, In t pre -> is_Name_Function (fst t) = false) ->
  is_Name_Function token = true ->
  first_function_name is_Name_Function (pre ++ (token, name) :: post) = Some name.
Proof.
  intros Hpre Htok. unfold first_function_name.
  induction pre as [|t pre IH]; simpl.
  - now rewrite Htok.
  - rewrite (Hpre t) by now left. apply IH. intros x Hx. apply Hpre. now right.
Qed.

Lemma attributed_weaken {Token} (is_Name_Function : Token -> bool)
    (get_tokens : lexer Token) (lines : list str) (lo lo' : nat)
    (methods : list method) :
  (lo' <= lo)%nat ->
  attributed is_Name_Function get_tokens lines lo methods ->
  attributed is_Name_Function get_tokens lines lo' methods.
Proof.
  intros Hlo H. destruct H as [lo|lo i c line name rest Hi Hc Hl Hn Hrest].
  - constructor.
  - apply (attributed_cons is_Name_Function get_tokens lines lo' i c line name rest);
      (assumption || lia).
Qed.

Lemma token_lines_skipn {Token} (is_Name_Function : Token -> bool)
    (get_tokens : lexer Token) (lines : list str) (a b : nat) :
  (a <= b)%nat ->
  (List.length (token_lines is_Name_Function get_tokens (skipn b lines))
   <= List.length (token_lines is_Name_Function get_tokens (skipn a lines)))%nat.
Proof.
  intros Hab. replace b with ((b - a) + a)%nat by lia.
  rewrite <- skipn_skipn. generalize (skipn a lines) as l. intros l.
  generalize (b - a)%nat as n. intros n. revert l.
  induction n as [|n IH]; intros [|x l]; simpl; try lia.
  specialize (IH l). unfold token_lines in *. simpl.
  destruct (existsb _ (get_tokens x)); simpl; lia.
Qed.

Lemma token_lines_here {Token} (is_Name_Function : Token -> bool)
    (get_tokens : lexer Token) (lines : list str) (i : nat)
    (line : str) (pre post : list (Token * str)) (token : Token) (name : str) :
  nth_error lines i = Some line ->
  get_tokens line = pre ++ (token, name) :: post ->
  is_Name_Function token = true ->
  List.length (token_lines is_Name_Function get_tokens (skipn i lines))
  = S (List.length (token_lines is_Name_Function get_tokens (skipn (S i) lines))).
Proof.
  intros Hl Ht Htok. rewrite (skipn_nth_error lines i line Hl).
  unfold token_lines. simpl. rewrite Ht, existsb_app. simpl. rewrite Htok.
  now rewrite orb_true_r.
Qed.

(** The invariant of the scan loop: the records added from line [i] on
    are attributed to disjoint ranges of lines from [i] on, the miss
    counter does not decrease, and records and misses together are no
    more than the lines from [i] on that carry a function-name token. *)
Lemma scan_loop_invariant {Token} (is_Name_Function : Token -> bool)
    (get_tokens : lexer Token) (lines : list str) (fuel : nat) :
  forall (i : nat) (methods result : list method) (missed missed' : Z),
  scan_loop is_Name_Function fuel get_tokens lines (Z.of_nat i) methods missed
  = Ok (result, missed') ->
  exists new,
    result = methods ++ new
    /\ attributed is_Name_Function get_tokens lines i new
    /\ missed <= missed'
    /\ Z.of_nat (List.length new) + (missed' - missed)
       <= Z.of_nat (List.length
            (token_lines is_Name_Function get_tokens (skipn i lines))).
Proof.
  induction fuel as [|fuel IH]; intros i methods result missed missed' Hrun.
  - simpl in Hrun. destruct (Z.of_nat i <? len lines); [discriminate|].
    injection Hrun as <- <-. exists []. rewrite app_nil_r.
    split; [reflexivity|]. split; [constructor|]. simpl. lia.
  - simpl in Hrun. destruct (Z.ltb_spec (Z.of_nat i) (len lines)) as [Hlt|Hge].
    + unfold len in Hlt.
      destruct (nth_error lines i) as [line|] eqn:El;
        [|apply nth_error_None in El; lia].
      unfold scan_step in Hrun. rewrite (getitem_nat _ _ _ El) in Hrun.
      simpl in Hrun.
      destruct (first_function_token is_Name_Function (get_tokens line))
        as [Hnone|(pre & token & name & post & Ht & Hpre & Htok)].
      * rewrite for_tokens_none in Hrun by assumption. simpl in Hrun.
        replace (Z.of_nat i + 1) with (Z.of_nat (S i)) in Hrun by lia.
        destruct (IH _ _ _ _ _ Hrun) as (new & Hres & Hatt & Hm & Hcount).
        exists new. split; [exact Hres|].
        split; [apply (attributed_weaken _ _ _ (S i)); [lia|exact Hatt]|].
        split; [exact Hm|].
        pose proof (token_lines_skipn is_Name_Function get_tokens lines i (S i)).
        lia.
      * rewrite Ht, for_tokens_first in Hrun by assumption.
        destruct (handle_function lines (Z.of_nat i) line name methods missed)
          as [[[c m1] ms1]| |] eqn:Hh; simpl in Hrun; try discriminate.
        destruct (handle_function_step lines i line name methods m1 missed ms1 c El Hh)
          as (cn & -> & Hcn & Hcases).
        replace (Z.of_nat cn + 1) with (Z.of_nat (S cn)) in Hrun by lia.
        destruct (IH _ _ _ _ _ Hrun) as (new & Hres & Hatt & Hm & Hcount).
        pose proof (token_lines_here is_Name_Function get_tokens lines i line
                      pre post token name El Ht Htok) as Hhere.
        pose proof (token_lines_skipn is_Name_Function get_tokens lines (S i) (S cn)
                      ltac:(lia)) as Hmono.
        destruct Hcases as [(-> & Hms)|(-> & ->)].
        -- exists new. split; [exact Hres|].
           split; [apply (attributed_weaken _ _ _ (S cn)); [lia|exact Hatt]|].
           split; lia.
        -- exists ((name, concat (lines_between lines i cn)) :: new).
           split; [now rewrite Hres, <- app_assoc|].
           split.
           { apply (attributed_cons is_Name_Function get_tokens lines i i cn line name new);
               try (assumption || lia).
             rewrite Ht. now apply first_function_name_split. }
           split; [lia|]. simpl List.length. lia.
    + injection Hrun as <- <-. exists []. rewrite app_nil_r.
      split; [reflexivity|]. split; [constructor|]. simpl. lia.
Qed.

Lemma process_filename_scan {Token} (is_Name_Function : Token -> bool)
    (get_lexer_for_filename : str -> outcome (lexer Token))
    (readlines : str -> outcome (list str)) (filename : str)
    (get_tokens : lexer Token) (lines : list str) :
  get_lexer_for_filename filename = Ok get_tokens ->
  readlines filename = Ok lines ->
  exists methods missed,
    process_filename is_Name_Function get_lexer_for_filename readlines filename
    = Ok (methods, missed)
    /\ scan_loop is_Name_Function (List.length lines) get_tokens lines 0 [] 0
       = Ok (methods, missed).
Proof.
  intros Hl Hr.
  destruct (scan_loop_returns is_Name_Function get_tokens lines
              (List.length lines) 0 [] 0) as [[methods missed] Hres];
    [lia|unfold len; lia|].
  specialize (Hres (List.length lines) ltac:(unfold len; lia)).
  exists methods, missed. split; [|exact Hres].
  unfold process_filename, process_filename_try. rewrite Hl, Hr. simpl.
  now rewrite Hres.
Qed.

(** X5.  When a lexer is found and the file is read, [process_filename]
    returns records that are, in the order of the file, the texts of
    disjoint ranges of consecutive lines: each record is the
    concatenation of the lines [i .. c] for a line [i] whose first
    function-name token gives the record its name, and the next record
    starts after line [c]. *)
Theorem process_filename_attributed {Token} (is_Name_Function : Token -> bool)
    (get_lexer_for_filename : str -> outcome (lexer Token))
    (readlines : str -> outcome (list str)) (filename : str)
    (get_tokens : lexer Token) (lines : list str) :
  get_lexer_for_filename filename = Ok get_tokens ->
  readlines filename = Ok lines ->
  exists methods missed,
    process_filename is_Name_Function get_lexer_for_filename readlines filename
    = Ok (methods, missed)
    /\ attributed is_Name_Function get_tokens lines 0 methods.
Proof.
  intros Hl Hr.
  destruct (process_filename_scan is_Name_Function get_lexer_for_filename
              readlines filename get_tokens lines Hl Hr)
    as (methods & missed & Hp & Hscan).
  exists methods, missed. split; [exact Hp|].
  destruct (scan_loop_invariant is_Name_Function get_tokens lines _ 0 [] methods 0 missed Hscan)
    as (new & -> & Hatt & _). exact Hatt.
Qed.

Lemma process_filename_attributed_witness :
  exists methods missed,
    process_filename (fun t : bool => t)
      (fun _ => Ok (fun line => [(contains "(" line, lit "f")]))
      (fun _ => Ok [lit "int f() { return 1; }"; lit "int x;"]) (lit "A.java")
    = Ok (methods, missed)
    /\ attributed (fun t : bool => t)
         (fun line => [(contains "(" line, lit "f")])
         [lit "int f() { return 1; }"; lit "int x;"] 0 methods.
Proof.
  apply (process_filename_attributed (fun t : bool => t)
           (fun _ => Ok (fun line => [(contains "(" line, lit "f")]))
           (fun _ => Ok [lit "int f() { return 1; }"; lit "int x;"]) (lit "A.java"));
    reflexivity.
Defined.

(** X6.  When a lexer is found and the file is read, the miss count that
    [process_filename] returns is not negative, and the records and the
    misses together are no more than the lines of the file that carry a
    function-name token; a file without any such token gives no record
    and no miss. *)
Theorem process_filename_counts {Token} (is_Name_Function : Token -> bool)
    (get_lexer_for_filename : str -> outcome (lexer Token))
    (readlines : str -> outcome (list str)) (filename : str)
    (get_tokens : lexer Token) (lines : list str) :
  get_lexer_for_filename filename = Ok get_tokens ->
  readlines filename = Ok lines ->
  exists methods missed,
    process_filename is_Name_Function get_lexer_for_filename readlines filename
    = Ok (methods, missed)
    /\ 0 <= missed
    /\ Z.of_nat (List.length methods) + missed
       <= Z.of_nat (List.length (token_lines is_Name_Function get_tokens lines))
    /\ (List.length (token_lines is_Name_Function get_tokens lines)
        <= List.length lines)%nat
    /\ ((forall line t, In line lines -> In t (get_tokens line) ->
           is_Name_Function (fst t) = false) ->
        methods = [] /\ missed = 0).
Proof.
  intros Hl Hr.
  destruct (process_filename_scan is_Name_Function get_lexer_for_filename
              readlines filename get_tokens lines Hl Hr)
    as (methods & missed & Hp & Hscan).
  exists methods, missed. split; [exact Hp|].
  destruct (scan_loop_invariant is_Name_Function get_tokens lines _ 0 [] methods 0 missed Hscan)
    as (new & -> & _ & Hm & Hcount).
  simpl in Hcount |- *. split; [exact Hm|]. split; [lia|].
  split; [apply filter_length_le|].
  intros Hnone.
  assert (E : token_lines is_Name_Function get_tokens lines = []).
  { unfold token_lines. clear - Hnone.
    induction lines as [|l r IH]; [reflexivity|]. simpl.
    destruct (existsb _ (get_tokens l)) eqn:Ex.
    - apply existsb_exists in Ex as (t & Ht & Hf).
      rewrite (Hnone l t) in Hf; [discriminate|now left|exact Ht].
    - apply IH. intros line t Hline. apply Hnone. now right. }
  rewrite E in Hcount. cbn [List.length] in Hcount.
  destruct new as [|m new]; cbn [List.length] in Hcount;
    [split; [reflexivity|lia]|lia].
Qed.

Lemma process_filename_counts_witness :
  exists methods missed,
    process_filename (fun t : bool => t)
      (fun _ => Ok (fun line => [(contains "(" line, lit "f")]))
      (fun _ => Ok [lit "int f() { return 1; }"; lit "int g(int a,"; lit "int x;"])
      (lit "A.java")
    = Ok (methods, missed)
    /\ 0 <= missed
    /\ Z.of_nat (List.length methods) + missed <= 2.
Proof.
  destruct (process_filename_counts (fun t : bool => t)
              (fun _ => Ok (fun line => [(contains "(" line, lit "f")]))
              (fun _ => Ok [lit "int f() { return 1; }"; lit "int g(int a,"; lit "int x;"])
              (lit "A.java")
              (fun line => [(contains "(" line, lit "f")])
              [lit "int f() { return 1; }"; lit "int g(int a,"; lit "int x;"]
              eq_refl eq_refl)
    as (methods & missed & Hp & Hm & Hc & _).
  exists methods, missed. split; [exact Hp|]. split; [exact Hm|exact Hc].
Defined.

(** X7.  [process_filename] raises exactly what its two collaborators
    raise and the [except] clause does not catch: it raises [e] if and
    only if [e] is neither [UnicodeDecodeError] nor [ClassNotFound] and
    either the lexer lookup raises [e], or the lexer is found and
    reading the file raises [e].  The scan itself raises nothing. *)
Theorem process_filename_raises {Token} (is_Name_Function : Token -> bool)
    (get_lexer_for_filename : str -> outcome (lexer Token))
    (readlines : str -> outcome (list str)) (filename : str) (e : exn) :
  process_filename is_Name_Function get_lexer_for_filename readlines filename
  = Raise e
  <-> (e <> UnicodeDecodeError /\ e <> ClassNotFound
       /\ (get_lexer_for_filename filename = Raise e
           \/ exists get_tokens,
                get_lexer_for_filename filename = Ok get_tokens
                /\ readlines filename = Raise e)).
Proof.
  destruct (get_lexer_for_filename filename) as [get_tokens|e1|] eqn:Hl.
  - destruct (readlines filename) as [lines|e2|] eqn:Hr.
    + destruct (process_filename_scan is_Name_Function get_lexer_for_filename
                  readlines filename get_tokens lines Hl Hr)
        as (methods & missed & -> & _).
      split; [discriminate|].
      intros (_ & _ & [H|(gt & _ & H)]); discriminate.
    + unfold process_filename, process_filename_try. rewrite Hl, Hr. simpl.
      split.
      * destruct e2; intros H; try discriminate; injection H as <-;
          (split; [discriminate|]); (split; [discriminate|]);
          right; now exists get_tokens.
      * intros (H1 & H2 & [H|(gt & _ & H)]); [discriminate|].
        injection H as ->. now destruct e.
    + unfold process_filename, process_filename_try. rewrite Hl, Hr. simpl.
      split; [discriminate|].
      intros (_ & _ & [H|(gt & _ & H)]); discriminate.
  - unfold process_filename, process_filename_try. rewrite Hl. simpl.
    split.
    + destruct e1; intros H; try discriminate; injection H as <-;
        (split; [discriminate|]); (split; [discriminate|]); now left.
    + intros (H1 & H2 & [H|(gt & H & _)]); [|discriminate].
      injection H as ->. now destruct e.
  - unfold process_filename, process_filename_try. rewrite Hl. simpl.
    split; [discriminate|].
    intros (_ & _ & [H|(gt & H & _)]); discriminate.
Qed.

(* ================================================================== *)
(** * Further properties: the corpus loop *)
(* ================================================================== *)

Section CorpusLoop.

Variable Token : Type.
Variable is_Name_Function : Token -> bool.
Variable get_lexer_for_filename : str -> outcome (lexer Token).
Variable readlines : str -> outcome (list str).

Local Abbreviation process :=
  (process_filename is_Name_Function get_lexer_for_filename readlines).
Local Abbreviation loop :=
  (get_methods_loop is_Name_Function get_lexer_for_filename readlines).

Lemma get_methods_loop_app (a b : list str) (methods : list method) (missed : Z) :
  loop (a ++ b) methods missed
  = ('(methods', missed') <- loop a methods missed ;; loop b methods' missed').
Proof.
  revert methods missed. induction a as [|f a IH]; intros methods missed.
  - reflexivity.
  - simpl.
    destruct (process_filename is_Name_Function get_lexer_for_filename readlines f)
      as [[m k]| |]; simpl; [apply IH|reflexivity|reflexivity].
Qed.

Lemma get_methods_loop_all_ok (files : list str) (results : list (list method * Z)) :
  Forall2 (fun f r => process f = Ok r) files results ->
  forall methods missed,
  loop files methods missed
  = Ok (methods ++ concat (map fst results),
        missed + fold_right Z.add 0 (map snd results)).
Proof.
  induction 1 as [|f [m k] files results Hf _ IH]; intros methods missed.
  - simpl. now rewrite app_nil_r, Z.add_0_r.
  - simpl. rewrite Hf. simpl.
    rewrite IH. simpl. f_equal. f_equal; [now rewrite app_assoc|lia].
Qed.

(** X8.  When every file of the directory is processed without raising,
    [get_methods] returns the records of the files concatenated in the
    order of [get_files], and the sum of their miss counts. *)
Theorem get_methods_aggregates (walk : str -> list (str * list str * list str))
    (join : str -> str -> str) (directory : str)
    (results : list (list method * Z)) :
  Forall2 (fun f r => process f = Ok r) (get_files walk join directory) results ->
  get_methods walk join is_Name_Function get_lexer_for_filename readlines directory
  = Ok (concat (map fst results), fold_right Z.add 0 (map snd results)).
Proof.
  intros H. exact (get_methods_loop_all_ok _ results H [] 0).
Qed.

(** X9.  When a file raises from [process_filename] and the files before
    it do not, [get_methods] raises the same exception: nothing found in
    the earlier files is returned and no later file is processed. *)
Theorem get_methods_aborts (walk : str -> list (str * list str * list str))
    (join : str -> str -> str) (directory : str)
    (pre post : list str) (file : str) (e : exn)
    (results : list (list method * Z)) :
  get_files walk join directory = pre ++ file :: post ->
  Forall2 (fun f r => process f = Ok r) pre results ->
  process file = Raise e ->
  get_methods walk join is_Name_Function get_lexer_for_filename readlines directory
  = Raise e.
Proof.
  intros Hfiles Hpre Hfile. unfold get_methods. rewrite Hfiles.
  rewrite get_methods_loop_app.
  rewrite (get_methods_loop_all_ok _ results Hpre). simpl.
  now rewrite Hfile.
Qed.

(** X10.  A file for which no lexer is found, or whose lexer is found
    and whose reading fails to decode, does not change what the loop of
    [get_methods] returns: the result is that of the list of files
    without it. *)
Theorem get_methods_loop_skips (pre post : list str) (file : str)
    (methods : list method) (missed : Z) :
  get_lexer_for_filename file = Raise ClassNotFound
  \/ (exists get_tokens, get_lexer_for_filename file = Ok get_tokens
                         /\ readlines file = Raise UnicodeDecodeError) ->
  loop (pre ++ file :: post) methods missed
  = loop (pre ++ post) methods missed.
Proof.
  intros Hskip.
  assert (Hp : process file = Ok ([], 0)).
  { unfold process_filename, process_filename_try.
    destruct Hskip as [-> | (gt & -> & Hr)]; [reflexivity|]. simpl.
    now rewrite Hr. }
  rewrite !get_methods_loop_app.
  destruct (loop pre methods missed) as [[m k]| |]; simpl; try reflexivity.
  rewrite Hp. simpl.
  now rewrite app_nil_r, Z.add_0_r.
Qed.

End CorpusLoop.

Lemma get_methods_aggregates_witness :
  get_methods (fun _ => [(lit "d", [], [lit "A.java"; lit "Makefile"])])
    (fun root f => root ++ lit "/" ++ f) (fun t : bool => t)
    (fun name => if contains "." name
                 then Ok (fun line => [(contains "(" line, lit "f")])
                 else Raise ClassNotFound)
    (fun _ => Ok [lit "int f() { return 1; }"; lit "int g(int a,"]) (lit "d")
  = Ok ([(lit "f", lit "int f() { return 1; }")], 1).
Proof.
  apply (get_methods_aggregates bool (fun t : bool => t)
           (fun name => if contains "." name
                        then Ok (fun line => [(contains "(" line, lit "f")])
                        else Raise ClassNotFound)
           (fun _ => Ok [lit "int f() { return 1; }"; lit "int g(int a,"])
           (fun _ => [(lit "d", [], [lit "A.java"; lit "Makefile"])])
           (fun root f => root ++ lit "/" ++ f) (lit "d")
           [([(lit "f", lit "int f() { return 1; }")], 1); ([], 0)]).
  repeat constructor.
Defined.

Lemma get_methods_aborts_witness :
  get_methods (fun _ => [(lit "d", [], [lit "A.java"; lit "B.java"; lit "C.java"])])
    (fun root f => root ++ lit "/" ++ f) (fun t : bool => t)
    (fun name => Ok (fun line => [(contains "(" line, lit "f")]))
    (fun name => if contains "B" name then Raise OSError
                 else Ok [lit "int f() { return 1; }"]) (lit "d")
  = Raise OSError.
Proof.
  apply (get_methods_aborts bool (fun t : bool => t)
           (fun name => Ok (fun line => [(contains "(" line, lit "f")]))
           (fun name => if contains "B" name then Raise OSError
                        else Ok [lit "int f() { return 1; }"])
           (fun _ => [(lit "d", [], [lit "A.java"; lit "B.java"; lit "C.java"])])
           (fun root f => root ++ lit "/" ++ f) (lit "d")
           [lit "d/A.java"] [lit "d/C.java"] (lit "d/B.java") OSError
           [([(lit "f", lit "int f() { return 1; }")], 0)]).
  - reflexivity.
  - repeat constructor.
  - reflexivity.
Defined.

Lemma get_methods_loop_skips_witness :
  get_methods_loop (fun t : bool => t)
    (fun name => if contains "." name
                 then Ok (fun line => [(contains "(" line, lit "f")])
                 else Raise ClassNotFound)
    (fun _ => Ok [lit "int f() { return 1; }"])
    ([lit "A.java"] ++ lit "Makefile" :: [lit "B.java"]) [] 0
  = get_methods_loop (fun t : bool => t)
      (fun name => if contains "." name
                   then Ok (fun line => [(contains "(" line, lit "f")])
                   else Raise ClassNotFound)
      (fun _ => Ok [lit "int f() { return 1; }"])
      ([lit "A.java"] ++ [lit "B.java"]) [] 0.
Proof.
  apply (get_methods_loop_skips bool (fun t : bool => t)
           (fun name => if contains "." name
                        then Ok (fun line => [(contains "(" line, lit "f")])
                        else Raise ClassNotFound)
           (fun _ => Ok [lit "int f() { return 1; }"])
           [lit "A.java"] [lit "B.java"] (lit "Makefile") [] 0).
  left. reflexivity.
Defined.

(* ================================================================== *)
(** * Further properties: the extension table *)
(* ================================================================== *)

Lemma str_eqb_eq (a b : str) : str_eqb a b = true <-> a = b.
Proof.
  revert b. induction a as [|x a IH]; intros [|y b]; simpl;
    try (split; [discriminate|discriminate]); [tauto|].
  rewrite andb_true_iff, Ascii.eqb_eq, IH. split.
  - intros [-> ->]. reflexivity.
  - intros H. injection H as -> ->. auto.
Qed.

Lemma str_eqb_refl (a : str) : str_eqb a a = true.
Proof. now apply str_eqb_eq. Qed.

Lemma str_eqb_neq (a b : str) : a <> b -> str_eqb a b = false.
Proof.
  intros H. destruct (str_eqb a b) eqn:E; [|reflexivity].
  apply str_eqb_eq in E. contradiction.
Qed.

Lemma dict_mem_get {V} (k : str) (d : dict V) :
  dict_mem k d = false <-> dict_get k d = None.
Proof.
  unfold dict_mem. induction d as [|[k' v] r IH]; simpl; [tauto|].
  destruct (str_eqb k' k); simpl; [split; discriminate|exact IH].
Qed.

Lemma dict_get_keys {V} (k : str) (d : dict V) :
  dict_get k d = None <-> ~ In k (map fst d).
Proof.
  induction d as [|[k' v] r IH]; simpl; [tauto|].
  destruct (str_eqb k' k) eqn:E.
  - apply str_eqb_eq in E. split; [discriminate|]. intros H. exfalso. auto.
  - rewrite IH. split.
    + intros H [Hk|Hk]; [|contradiction].
      subst k'. rewrite str_eqb_refl in E. discriminate.
    + intros H Hk. apply H. now right.
Qed.

Lemma dict_get_in {V} (k : str) (v : V) (d : dict V) :
  NoDup (map fst d) -> (In (k, v) d <-> dict_get k d = Some v).
Proof.
  induction d as [|[k' v'] r IH]; simpl; intros Hnd.
  - split; [contradiction|discriminate].
  - inversion Hnd as [|? ? Hnotin Hnd']; subst.
    destruct (str_eqb k' k) eqn:E.
    + apply str_eqb_eq in E. subst k'. split.
      * intros [H|H]; [now injection H as ->|].
        exfalso. apply Hnotin. now apply (in_map fst) in H.
      * intros H. injection H as ->. now left.
    + rewrite <- (IH Hnd'). split.
      * intros [H|H]; [|exact H]. injection H as -> _.
        rewrite str_eqb_refl in E. discriminate.
      * intros H. now right.
Qed.

Lemma dict_get_add {V} (k k0 : str) (v : V) (d : dict V) :
  dict_get k (dict_add k0 v d)
  = match dict_get k d with
    | Some x => Some x
    | None => if str_eqb k0 k then Some v else None
    end.
Proof.
  unfold dict_add. induction d as [|[k' v'] r IH]; simpl; [reflexivity|].
  now destruct (str_eqb k' k).
Qed.

Lemma dict_get_modify {V} (k k0 : str) (f : V -> V) (d : dict V) :
  dict_get k (dict_modify k0 f d)
  = if str_eqb k0 k then option_map f (dict_get k d) else dict_get k d.
Proof.
  induction d as [|[k' v'] r IH]; simpl; [now destruct (str_eqb k0 k)|].
  destruct (str_eqb k' k0) eqn:E0; simpl.
  - apply str_eqb_eq in E0. subst k'. now destruct (str_eqb k0 k).
  - rewrite IH. destruct (str_eqb k' k) eqn:E; [|reflexivity].
    apply str_eqb_eq in E. subst k'. now rewrite str_eqb_neq
      by (intros ->; rewrite str_eqb_refl in E0; discriminate).
Qed.

Lemma dict_modify_keys {V} (k0 : str) (f : V -> V) (d : dict V) :
  map fst (dict_modify k0 f d) = map fst d.
Proof.
  induction d as [|[k' v'] r IH]; simpl; [reflexivity|].
  destruct (str_eqb k' k0); simpl; [reflexivity|now rewrite IH].
Qed.

Lemma total_count_app (a b : list (str * (Z * str))) :
  total_count (a ++ b) = total_count a + total_count b.
Proof. unfold total_count. rewrite map_app. apply sum_app. Qed.

Lemma total_count_modify (k0 : str) (d : dict (Z * str)) :
  dict_get k0 d <> None ->
  total_count (dict_modify k0 (fun v => (fst v + 1, snd v)) d)
  = total_count d + 1.
Proof.
  unfold total_count. induction d as [|[k' v'] r IH]; simpl; [congruence|].
  destruct (str_eqb k' k0); simpl; intros H; [lia|].
  rewrite IH by assumption. lia.
Qed.

Lemma with_extension_snoc (splitext : str -> str * str) (ext f : str)
    (p : list str) :
  with_extension splitext ext (p ++ [f])
  = with_extension splitext ext p
    ++ (if str_eqb (get_extension splitext f) ext then [f] else []).
Proof. unfold with_extension. rewrite filter_app. reflexivity. Qed.

Lemma extension_entry_snoc (splitext : str -> str * str) (ext f : str)
    (p : list str) :
  extension_entry splitext ext (p ++ [f])
  = if str_eqb (get_extension splitext f) ext then
      match extension_entry splitext ext p with
      | None => Some (1, f)
      | Some v => Some (fst v + 1, snd v)
      end
    else extension_entry splitext ext p.
Proof.
  unfold extension_entry. rewrite with_extension_snoc.
  destruct (str_eqb (get_extension splitext f) ext).
  - destruct (with_extension splitext ext p) as [|f0 r]; [reflexivity|].
    simpl app. cbn [fst snd]. f_equal. f_equal.
    rewrite !length_cons, length_app. simpl List.length. lia.
  - now rewrite app_nil_r.
Qed.

Section ExtensionTable.

Variable walk : str -> list (str * list str * list str).
Variable join : str -> str -> str.
Variable splitext : str -> str * str.

Lemma count_extension_step (p : list str) (counter : dict (Z * str)) (f : str) :
  table_of splitext p counter ->
  table_of splitext (p ++ [f]) (count_extension splitext counter f).
Proof.
  intros (Hnd & Hget & Htot). unfold count_extension.
  set (ext0 := get_extension splitext f).
  destruct (dict_mem ext0 counter) eqn:Em; simpl negb; cbv iota.
  - assert (Hsome : dict_get ext0 counter <> None).
    { intros H. apply dict_mem_get in H. congruence. }
    split; [now rewrite dict_modify_keys|]. split.
    + intros ext. rewrite dict_get_modify, extension_entry_snoc. fold ext0.
      destruct (str_eqb ext0 ext) eqn:E; [|apply Hget].
      apply str_eqb_eq in E. subst ext. rewrite <- Hget.
      destruct (dict_get ext0 counter); [reflexivity|congruence].
    + rewrite total_count_modify by assumption. rewrite Htot.
      unfold len. rewrite length_app. simpl. lia.
  - apply dict_mem_get in Em.
    assert (Hmod : dict_modify ext0 (fun v => (fst v + 1, snd v))
                     (dict_add ext0 (0, f) counter)
                   = counter ++ [(ext0, (1, f))]).
    { unfold dict_add. apply dict_get_keys in Em. clear - Em.
      induction counter as [|[k v] r IH]; simpl.
      - now rewrite str_eqb_refl.
      - rewrite str_eqb_neq by (intros ->; apply Em; now left).
        f_equal. apply IH. intros H. apply Em. now right. }
    rewrite Hmod. split; [|split].
    + rewrite map_app. simpl. apply NoDup_app_remove_l with (l := []).
      simpl. apply Permutation_NoDup with (l := ext0 :: map fst counter).
      * apply Permutation_cons_append.
      * constructor; [now apply dict_get_keys|exact Hnd].
    + intros ext. change (counter ++ [(ext0, (1, f))])
        with (dict_add ext0 (1, f) counter).
      rewrite dict_get_add, extension_entry_snoc. fold ext0.
      destruct (str_eqb ext0 ext) eqn:E.
      * apply str_eqb_eq in E. subst ext. rewrite <- Hget, Em. reflexivity.
      * rewrite Hget. now destruct (extension_entry splitext ext p).
    + rewrite total_count_app, Htot. unfold total_count, len.
      rewrite length_app. simpl. lia.
Qed.

Lemma count_extension_loop (files p : list str) (counter : dict (Z * str)) :
  table_of splitext p counter ->
  table_of splitext (p ++ files) (fold_left (count_extension splitext) files counter).
Proof.
  revert p counter. induction files as [|f files IH]; intros p counter H; simpl.
  - now rewrite app_nil_r.
  - replace (p ++ f :: files) with ((p ++ [f]) ++ files)
      by (now rewrite <- app_assoc).
    apply IH. now apply count_extension_step.
Qed.

Lemma In_insert_sorted {A} (key : A -> Z) (x z : A) (l : list A) :
  In z (insert_sorted key x l) <-> z = x \/ In z l.
Proof.
  induction l as [|y r IH]; simpl; [intuition|].
  destruct (key y <? key x); simpl; [rewrite IH|]; intuition.
Qed.

Lemma insert_sorted_perm {A} (key : A -> Z) (x : A) (l : list A) :
  Permutation (insert_sorted key x l) (x :: l).
Proof.
  induction l as [|y r IH]; simpl; [reflexivity|].
  destruct (key y <? key x); [|reflexivity].
  rewrite IH. apply perm_swap.
Qed.

Lemma sorted_perm {A} (key : A -> Z) (l : list A) :
  Permutation (sorted key l) l.
Proof.
  induction l as [|x r IH]; simpl; [reflexivity|].
  rewrite insert_sorted_perm. now constructor.
Qed.

Lemma descending_insert (x : str * (Z * str)) (l : list (str * (Z * str))) :
  descending l ->
  descending (insert_sorted (fun x => - fst (snd x)) x l).
Proof.
  induction l as [|y r IH]; simpl; [intros _; split; [intros ? []|exact I]|].
  intros [Hy Hr].
  destruct (Z.ltb_spec (- fst (snd y)) (- fst (snd x))) as [Hlt|Hge]; simpl.
  - split; [|now apply IH].
    intros z Hz. apply In_insert_sorted in Hz as [->|Hz]; [lia|now apply Hy].
  - split; [|split; assumption].
    intros z [<-|Hz]; [lia|]. specialize (Hy z Hz). lia.
Qed.

Lemma descending_sorted (l : list (str * (Z * str))) :
  descending (sorted (fun x => - fst (snd x)) l).
Proof.
  induction l as [|x r IH]; simpl; [exact I|]. now apply descending_insert.
Qed.

Lemma total_count_perm (a b : list (str * (Z * str))) :
  Permutation a b -> total_count a = total_count b.
Proof.
  unfold total_count. induction 1; simpl; lia.
Qed.

Lemma get_files_flat_map (directory : str) :
  get_files walk join directory
  = flat_map (fun '(root, _, files) => map (join root) files) (walk directory).
Proof.
  unfold get_files.
  assert (Hin : forall root files res,
             fold_left (fun res filename => res ++ [join root filename]) files res
             = res ++ map (join root) files).
  { intros root files. induction files as [|f r IH]; intros res; simpl.
    - now rewrite app_nil_r.
    - now rewrite IH, <- app_assoc. }
  assert (Hout : forall (w : list (str * list str * list str)) res,
             fold_left
               (fun res '(root, dirs, files) =>
                  fold_left (fun res filename => res ++ [join root filename])
                    files res) w res
             = res ++ flat_map (fun '(root, _, files) => map (join root) files) w).
  { intros w. induction w as [|[[root dirs] files] w IH]; intros res; simpl.
    - now rewrite app_nil_r.
    - now rewrite IH, Hin, <- app_assoc. }
  apply (Hout (walk directory) []).
Qed.

Lemma get_file_extensions_table (directory : str) :
  exists counter,
    table_of splitext (get_files walk join directory) counter
    /\ get_file_extensions walk join splitext directory
       = sorted (fun x => - fst (snd x)) counter.
Proof.
  exists (fold_left (count_extension splitext) (get_files walk join directory) []).
  split; [|reflexivity].
  apply (count_extension_loop (get_files walk join directory) [] []).
  split; [constructor|]. split; [reflexivity|reflexivity].
Qed.

Lemma get_file_extensions_entry (directory ext : str) (n : Z) (file : str) :
  In (ext, (n, file)) (get_file_extensions walk join splitext directory)
  <-> extension_entry splitext ext (get_files walk join directory)
      = Some (n, file).
Proof.
  destruct (get_file_extensions_table directory) as (counter & (Hnd & Hget & _) & ->).
  rewrite <- Hget, <- (dict_get_in ext (n, file) counter Hnd).
  split; apply Permutation_in;
    [apply sorted_perm|apply Permutation_sym, sorted_perm].
Qed.

(** X11.  [get_file_extensions] lists every extension once.  An entry
    [(ext, (n, file))] is in the list exactly when [file] is the first
    file of [get_files] with the extension [ext] and [n] is the number
    of the files with that extension; so every count is at least 1 and
    every extension that occurs has its entry. *)
Theorem get_file_extensions_entries (directory : str) :
  NoDup (map fst (get_file_extensions walk join splitext directory))
  /\ forall ext n file,
       In (ext, (n, file)) (get_file_extensions walk join splitext directory)
       <-> exists rest,
             with_extension splitext ext (get_files walk join directory)
             = file :: rest
             /\ n = Z.of_nat (List.length (file :: rest)).
Proof.
  split.
  - destruct (get_file_extensions_table directory) as (counter & (Hnd & _) & ->).
    apply Permutation_NoDup with (l := map fst counter); [|exact Hnd].
    apply Permutation_map, Permutation_sym, sorted_perm.
  - intros ext n file. rewrite get_file_extensions_entry.
    unfold extension_entry.
    destruct (with_extension splitext ext (get_files walk join directory))
      as [|f r]; split.
    + discriminate.
    + intros (rest & H & _). discriminate.
    + intros H. injection H as <- <-. now exists r.
    + intros (rest & H & ->). now injection H as -> ->.
Qed.

(** X12.  The list that [get_file_extensions] returns is in descending
    order of count, and its counts add up to the number of files that
    [get_files] returns. *)
Theorem get_file_extensions_descending (directory : str) :
  descending (get_file_extensions walk join splitext directory)
  /\ total_count (get_file_extensions walk join splitext directory)
     = len (get_files walk join directory).
Proof.
  destruct (get_file_extensions_table directory) as (counter & (_ & _ & Htot) & ->).
  split; [apply descending_sorted|].
  now rewrite (total_count_perm _ _ (sorted_perm _ counter)).
Qed.

(** X13.  [get_files_by_extension] returns file names that all have the
    extension asked for.  When joining a directory to a file name of the
    walk does not change the extension, the count that
    [get_file_extensions] gives for an extension is the number of names
    that [get_files_by_extension] returns for it. *)
Theorem get_files_by_extension_count (directory : str) :
  (forall root dirs files f,
     In (root, dirs, files) (walk directory) -> In f files ->
     get_extension splitext (join root f) = get_extension splitext f) ->
  (forall ext f,
     In f (get_files_by_extension walk splitext directory ext) ->
     get_extension splitext f = ext)
  /\ (forall ext n file,
        In (ext, (n, file)) (get_file_extensions walk join splitext directory) ->
        n = len (get_files_by_extension walk splitext directory ext)).
Proof.
  intros Hjoin. split.
  - intros ext f Hf. unfold get_files_by_extension in Hf.
    apply in_flat_map in Hf as ([[root dirs] files] & _ & Hf).
    apply filter_In in Hf as [_ Hf]. now apply str_eqb_eq.
  - intros ext n file Hin. apply get_file_extensions_entry in Hin.
    assert (Hlen : List.length
                     (with_extension splitext ext (get_files walk join directory))
                   = List.length (get_files_by_extension walk splitext directory ext)).
    { rewrite get_files_flat_map. unfold get_files_by_extension, with_extension.
      induction (walk directory) as [|[[root dirs] files] w IH]; [reflexivity|].
      simpl. rewrite filter_app, !length_app.
      rewrite IH
        by (intros r d fs f Hw Hf; apply (Hjoin r d fs f); [now right|exact Hf]).
      f_equal.
      assert (Hfiles : forall f, In f files ->
                get_extension splitext (join root f) = get_extension splitext f)
        by (intros f; apply (Hjoin root dirs files); now left).
      clear - Hfiles. induction files as [|f r IH]; [reflexivity|]. simpl.
      rewrite (Hfiles f) by now left.
      destruct (str_eqb (get_extension splitext f) ext); simpl;
        rewrite IH by (intros g Hg; apply Hfiles; now right); reflexivity. }
    unfold extension_entry in Hin. unfold len. rewrite <- Hlen.
    destruct (with_extension splitext ext (get_files walk join directory));
      [discriminate|]. now injection Hin as <- _.
Qed.

End ExtensionTable.

Lemma get_files_by_extension_count_witness :
  2 = len (get_files_by_extension
             (fun _ => [(lit "d", [], [lit "A.java"; lit "C.txt"; lit "B.java"])])
             (fun s => (s, slice_from s (find "." s)))
             (lit "d") (lit ".java")).
Proof.
  apply (proj2 (get_files_by_extension_count
                  (fun _ => [(lit "d", [], [lit "A.java"; lit "C.txt"; lit "B.java"])])
                  (fun root f => root ++ lit "/" ++ f)
                  (fun s => (s, slice_from s (find "." s)))
                  (lit "d")
                  ltac:(intros root dirs files f [Hw|[]] Hf;
                        injection Hw as <- <- <-;
                        destruct Hf as [<-|[<-|[<-|[]]]]; reflexivity))
               (lit ".java") 2 (lit "d/A.java")).
  vm_compute. left. reflexivity.
Defined.

(** X14.  [get_files] returns, in the order of the walk, every file name
    of every directory of the walk joined to the root of that directory,
    each once: as many paths as the walk has file names. *)
Theorem get_files_lists_walk (walk : str -> list (str * list str * list str))
    (join : str -> str -> str) (directory : str) :
  get_files walk join directory
  = flat_map (fun '(root, _, files) => map (join root) files) (walk directory)
  /\ List.length (get_files walk join directory)
     = fold_right Nat.add 0%nat
         (map (fun '(_, _, files) => List.length files) (walk directory)).
Proof.
  rewrite get_files_flat_map. split; [reflexivity|].
  induction (walk directory) as [|[[root dirs] files] w IH]; [reflexivity|].
  simpl. now rewrite length_app, length_map, IH.
Qed.

Example get_file_extensions_sample :
  get_file_extensions
    (fun _ => [(lit "d", [lit "e"], [lit "A.java"; lit "C.txt"]);
               (lit "d/e", [], [lit "D.py"; lit "B.java"])])
    (fun root f => root ++ lit "/" ++ f)
    (fun s => (s, slice_from s (find "." s)))
    (lit "d")
  = [(lit ".java", (2, lit "d/A.java"));
     (lit ".txt", (1, lit "d/C.txt"));
     (lit ".py", (1, lit "d/e/D.py"))].
Proof. reflexivity. Qed.
